(** * Rawfin API client: request layer, retry policy and auth session

    A shallow embedding of the browser-side API client (class [RawfinAPI],
    its sub-clients [AuthAPI] and [EpisodesAPI], the [APIError] class and
    the OAuth callback handler that runs at page load), followed by the
    properties of the request primitive, of the retry loop and of the
    auth-session life cycle.

    The client is asynchronous but single-threaded.  Every [await] is
    modelled as a synchronous step whose outcome is supplied by the
    network: [net k] is what the transport answers to the [k]-th call of
    [fetch].  All other effects (local storage, header objects shared by
    reference, timers, console, navigation) live in an explicit [World]
    that is threaded through a state-and-exception monad. *)

From Stdlib Require Import Ascii.
From stdpp Require Import gmap strings list fin_maps pretty.
From Equations Require Import Equations.

Set Warnings "-register-all".

Open Scope string_scope.
Open Scope Z_scope.

(** ** JavaScript values *)

(** The JSON values a response body parses to. *)
Inductive Json :=
| JNull
| JBool (b : bool)
| JNum (z : Z)
| JStr (s : string)
| JArr (items : list Json)
| JObj (fields : list (string * Json)).

(** The empty object literal [{}]. *)
Definition empty_object : Json := JObj [].

Definition nonempty (s : string) : bool :=
  match s with
  | EmptyString => false
  | String _ _ => true
  end.

(** Truthiness of a parsed JSON value, as tested by [if (data)]. *)
Definition truthy (j : Json) : bool :=
  match j with
  | JNull => false
  | JBool b => b
  | JNum z => negb (z =? 0)
  | JStr s => nonempty s
  | JArr _ => true
  | JObj _ => true
  end.

(** Truthiness of a value that is a string or [null]. *)
Definition truthy_str (v : option string) : bool :=
  match v with
  | Some s => nonempty s
  | None => false
  end.

(** [v || d] on a string that may be missing. *)
Definition or_else (v : option string) (d : string) : string :=
  match v with
  | Some s => if nonempty s then s else d
  | None => d
  end.

(** [s.includes(sub)]. *)
Fixpoint includes (s sub : string) : bool :=
  String.prefix sub s ||
  match s with
  | EmptyString => false
  | String _ rest => includes rest sub
  end.

(** ** Failures *)

(** What the platform itself throws: a [TypeError] of a failed [fetch], a
    [DOMException] named AbortError of a cancelled one, a [SyntaxError]
    of [response.json()]. *)
Record DOMError := { err_name : string; err_message : string }.

(** A thrown value is either an instance of the client's own [APIError]
    class or a platform error. *)
Inductive Thrown :=
| APIError (message : string) (status : Z) (data : Json)
| Native (e : DOMError).

(** [new APIError(message, status, data = {})]. *)
Definition new_APIError (message : string) (status : Z) (data : option Json) : Thrown :=
  APIError message status (default empty_object data).

(** [error.name]: the constructor of [APIError] sets it to APIError. *)
Definition error_name (error : Thrown) : string :=
  match error with
  | APIError _ _ _ => "APIError"
  | Native e => err_name e
  end.

(** ** The network *)

Inductive BodyOutcome :=
| BodyJson (d : Json)
| BodyRejects (e : DOMError).

Inductive FetchOutcome :=
| FetchRejects (e : DOMError)
| FetchResolves (status : Z) (body : BodyOutcome).

Record Response := { resp_status : Z; resp_body : BodyOutcome }.

(** [response.ok]. *)
Definition ok (r : Response) : bool :=
  (200 <=? resp_status r) && (resp_status r <=? 299).

(** ** The world *)

Inductive TimerAction :=
| AbortFetch
| ResolveDelay
| DismissNotification
| GoTo (url : string).

Inductive LogArg :=
| LogThrown (e : Thrown)
| LogText (s : string).

Inductive Event :=
| EvFetch (url method : string) (hdrs : gmap string string) (payload : option string)
| EvSetTimeout (id : nat) (ms : Z) (action : TimerAction)
| EvClearTimeout (id : nat)
| EvTimerFired (id : nat)
| EvConsoleError (label : string) (arg : LogArg)
| EvConsoleLog (text : string)
| EvNavigate (url : string)
| EvNotification (message kind : string)
| EvUnhandledRejection (e : Thrown).

Record World := mkWorld {
  storage : gmap string string;
  heap : gmap nat (gmap string string);
  timers : gmap nat (Z * TimerAction);
  next_timer : nat;
  fetched : nat;
  trace : list Event
}.

Definition set_storage (f : gmap string string → gmap string string) (w : World) : World :=
  mkWorld (f (storage w)) (heap w) (timers w) (next_timer w) (fetched w) (trace w).

Definition set_heap (f : gmap nat (gmap string string) → gmap nat (gmap string string))
    (w : World) : World :=
  mkWorld (storage w) (f (heap w)) (timers w) (next_timer w) (fetched w) (trace w).

Definition log_event (ev : Event) (w : World) : World :=
  mkWorld (storage w) (heap w) (timers w) (next_timer w) (fetched w) (trace w ++ [ev]).

(** The header object a reference points to. *)
Definition deref (w : World) (l : nat) : gmap string string :=
  default ∅ (heap w !! l).

(** ** The monad of effects *)

Inductive Result (A : Type) :=
| Return (a : A)
| Throw (e : Thrown).
Arguments Return {A} a.
Arguments Throw {A} e.

Definition M (A : Type) : Type := World → Result A * World.

Definition ret {A} (a : A) : M A := λ w, (Return a, w).

Definition throw {A} (e : Thrown) : M A := λ w, (Throw e, w).

Definition bind {A B} (m : M A) (k : A → M B) : M B :=
  λ w, match m w with
       | (Return a, w') => k a w'
       | (Throw e, w') => (Throw e, w')
       end.

Definition try_catch {A} (m : M A) (handler : Thrown → M A) : M A :=
  λ w, match m w with
       | (Return a, w') => (Return a, w')
       | (Throw e, w') => handler e w'
       end.

Definition emit (ev : Event) : M unit := λ w, (Return tt, log_event ev w).

Notation "'let*' x ':=' m 'in' k" := (bind m (λ x, k))
  (at level 10, x name, m at level 100, k at level 200).
Notation "m ';*' k" := (bind m (λ _, k))
  (at level 100, k at level 200, right associativity).

(** ** Platform primitives *)

Definition localStorage_getItem (key : string) : M (option string) :=
  λ w, (Return (storage w !! key), w).

Definition localStorage_setItem (key value : string) : M unit :=
  λ w, (Return tt, set_storage (insert key value) w).

Definition localStorage_removeItem (key : string) : M unit :=
  λ w, (Return tt, set_storage (delete key) w).

(** Evaluating an object literal allocates a fresh header object. *)
Definition alloc_headers (h : gmap string string) : M nat :=
  λ w, let l := fresh (dom (heap w)) in (Return l, set_heap (insert l h) w).

(** [...obj]: the entries of the header object at [l], none when the
    value that is spread is [undefined]. *)
Definition own_entries (l : option nat) : M (gmap string string) :=
  λ w, (Return (from_option (deref w) ∅ l), w).

(** [obj[key] = value] on the header object at [l]. *)
Definition set_header (l : nat) (key value : string) : M unit :=
  λ w, (Return tt, set_heap (insert l (<[key := value]> (deref w l))) w).

Definition setTimeout (action : TimerAction) (ms : Z) : M nat :=
  λ w, let id := next_timer w in
       (Return id,
        mkWorld (storage w) (heap w) (<[id := (ms, action)]> (timers w)) (S id)
                (fetched w) (trace w ++ [EvSetTimeout id ms action])).

Definition clearTimeout (id : nat) : M unit :=
  λ w, (Return tt,
        mkWorld (storage w) (heap w) (delete id (timers w)) (next_timer w)
                (fetched w) (trace w ++ [EvClearTimeout id])).

(** The awaited timer goes off. *)
Definition timer_fires (id : nat) : M unit :=
  λ w, (Return tt,
        mkWorld (storage w) (heap w) (delete id (timers w)) (next_timer w)
                (fetched w) (trace w ++ [EvTimerFired id])).

Definition console_error (label : string) (arg : LogArg) : M unit :=
  emit (EvConsoleError label arg).

Definition console_log (text : string) : M unit := emit (EvConsoleLog text).

(** [window.location.href = url]. *)
Definition navigate (url : string) : M unit := emit (EvNavigate url).

(** [response.json()]. *)
Definition response_json (r : Response) : M Json :=
  match resp_body r with
  | BodyJson d => ret d
  | BodyRejects e => throw (Native e)
  end.

(** ** Requests *)

(** The [options] argument of [request]: each key may be missing; the
    headers are a plain object, held by reference (not an instance of
    [Headers], whose added properties [fetch] does not read). *)
Record Options := {
  opt_method : option string;
  opt_headers : option nat;
  opt_body : option string
}.

(** [{ method: 'POST' }]. *)
Definition post : Options :=
  {| opt_method := Some "POST"; opt_headers := None; opt_body := None |}.

(** No options: the default [{}]. *)
Definition no_options : Options :=
  {| opt_method := None; opt_headers := None; opt_body := None |}.

Record Config := {
  method : string;
  headers : nat;
  body : option string
}.

(** [{ ...config, ...options }]: every key present in [options]
    replaces the one of the same name. *)
Definition spread_options (options : Options) (config : Config) : Config :=
  {| method := default (method config) (opt_method options);
     headers := default (headers config) (opt_headers options);
     body := match opt_body options with
             | Some b => Some b
             | None => body config
             end |}.

Record RawfinAPI := {
  baseURL : string;
  timeout : Z;
  retryAttempts : nat;
  retryDelay : Z
}.

(** The constructor of [RawfinAPI]. *)
Definition new_RawfinAPI : RawfinAPI :=
  {| baseURL := "https://rawfin.tv/api";
     timeout := 10000;
     retryAttempts := 3;
     retryDelay := 1000 |}.

Definition token_key : string := "rawfin_auth_token".
Definition user_key : string := "rawfin_user_data".

Definition getAuthToken : M (option string) := localStorage_getItem token_key.

Definition setAuthToken (token : option string) : M unit :=
  match token with
  | Some t => if nonempty t then localStorage_setItem token_key t
              else localStorage_removeItem token_key
  | None => localStorage_removeItem token_key
  end.

Definition isAuthenticated : M bool :=
  let* token := getAuthToken in ret (truthy_str token).

(** [shouldRetry(error)]. *)
Definition shouldRetry (error : Thrown) : bool :=
  match error with
  | APIError _ status _ => (500 <=? status) || (status =? 429)
  | Native _ => false
  end.

(** [delay(ms)], awaited. *)
Definition delay (ms : Z) : M unit :=
  let* id := setTimeout ResolveDelay ms in timer_fires id.

(** *** Values stored as strings, properties and URL encoding *)

(** The field [key] of a parsed object; of two fields of one name the
    later one counts. *)
Fixpoint get_field (fields : list (string * Json)) (key : string) : option Json :=
  match fields with
  | [] => None
  | (k, v) :: rest =>
      match get_field rest key with
      | Some v' => Some v'
      | None => if String.eqb k key then Some v else None
      end
  end.

(** What reading a property of [null] throws; the text of the message
    is the engine's. *)
Definition null_has_no_properties : DOMError :=
  {| err_name := "TypeError";
     err_message := "Cannot read properties of null (reading 'token')" |}.

(** [data.token]: [undefined] on a value that has no such property, a
    [TypeError] on [null]. *)
Definition property_token (data : Json) : M (option Json) :=
  match data with
  | JNull => throw (Native null_has_no_properties)
  | JObj fields => ret (get_field fields "token")
  | _ => ret None
  end.

Definition is_alnum (c : ascii) : bool :=
  let n := N_of_ascii c in
  ((48 <=? n) && (n <=? 57) || (65 <=? n) && (n <=? 90) || (97 <=? n) && (n <=? 122))%N.

Definition one_of (set : string) (c : ascii) : bool :=
  existsb (Ascii.eqb c) (String.list_ascii_of_string set).

Definition hex_digit (n : N) : ascii :=
  default "0"%char (String.list_ascii_of_string "0123456789ABCDEF" !! N.to_nat n).

(** [%XX], the byte in upper-case hexadecimal. *)
Definition percent_byte (c : ascii) : string :=
  String "%" (String (hex_digit (N_of_ascii c / 16)) (String (hex_digit (N_of_ascii c mod 16))
    EmptyString)).

(** [encodeURIComponent(s)], on the bytes of the UTF-8 form of [s]:
    letters, digits and [- _ . ! ~ * ' ( )] stay, every other byte is
    escaped. *)
Fixpoint encodeURIComponent (s : string) : string :=
  match s with
  | EmptyString => EmptyString
  | String c rest =>
      (if is_alnum c || one_of "-_.!~*'()" c then String c EmptyString else percent_byte c)
      +:+ encodeURIComponent rest
  end.

(** The serializer of [URLSearchParams], on the bytes of the UTF-8 form
    of [s]: a space becomes [+], letters, digits and [* - . _] stay,
    every other byte is escaped. *)
Fixpoint form_urlencode (s : string) : string :=
  match s with
  | EmptyString => EmptyString
  | String c rest =>
      (if Ascii.eqb c " " then "+"
       else if is_alnum c || one_of "*-._" c then String c EmptyString
       else percent_byte c)
      +:+ form_urlencode rest
  end.

Section Client.

(** What the transport answers to the [k]-th call of [fetch]. *)
Variable net : nat → FetchOutcome.

(** [JSON.stringify]. *)
Variable JSON_stringify : Json → string.

(** [fetch(url, config)], awaited. *)
Definition fetch (url : string) (config : Config) : M Response :=
  λ w,
    let w' := mkWorld (storage w) (heap w) (timers w) (next_timer w) (S (fetched w))
                (trace w ++ [EvFetch url (method config) (deref w (headers config))
                                     (body config)]) in
    match net (fetched w) with
    | FetchRejects e => (Throw (Native e), w')
    | FetchResolves status b => (Return {| resp_status := status; resp_body := b |}, w')
    end.

Definition setUserData (data : option Json) : M unit :=
  match data with
  | Some d => if truthy d then localStorage_setItem user_key (JSON_stringify d)
              else localStorage_removeItem user_key
  | None => localStorage_removeItem user_key
  end.

(** [request(endpoint, options = {})]. *)
Definition request (c : RawfinAPI) (endpoint : string) (options : Options) : M Json :=
  let* caller_headers := own_entries (opt_headers options) in
  let* merged :=
    alloc_headers (caller_headers ∪ {[ "Content-Type" := "application/json" ]}) in
  let config :=
    spread_options options
      {| method := or_else (opt_method options) "GET";
         headers := merged;
         body := None |} in
  let* token := getAuthToken in
  match token with
  | Some t =>
      if nonempty t
      then set_header (headers config) "Authorization" ("Bearer " +:+ t)
      else ret tt
  | None => ret tt
  end ;*
  let* timeoutId := setTimeout AbortFetch (timeout c) in
  try_catch
    (let* response := fetch (baseURL c +:+ endpoint) config in
     clearTimeout timeoutId ;*
     if negb (ok response)
     then
       let* data := try_catch (response_json response) (λ _, ret empty_object) in
       throw (new_APIError ("API Error: " +:+ pretty (resp_status response))
                           (resp_status response) (Some data))
     else response_json response)
    (λ error,
       clearTimeout timeoutId ;*
       if String.eqb (error_name error) "AbortError"
       then throw (new_APIError "Request timeout" 408 None)
       else
         console_error "API Request Failed:" (LogThrown error) ;*
         throw error).

(** [requestWithRetry(endpoint, options = {}, attempt = 1)]. *)
Equations? requestWithRetry (c : RawfinAPI) (endpoint : string) (options : Options)
    (attempt : nat) : M Json by wf (retryAttempts c - attempt)%nat lt :=
  requestWithRetry c endpoint options attempt :=
    try_catch (request c endpoint options)
      (λ error,
         match decide (attempt < retryAttempts c)%nat with
         | left _ =>
             if shouldRetry error
             then
               console_log ("Retrying request (attempt " +:+ pretty (attempt + 1)%nat
                            +:+ ")...") ;*
               delay (retryDelay c * Z.of_nat attempt) ;*
               requestWithRetry c endpoint options (attempt + 1)%nat
             else throw error
         | right _ => throw error
         end).
Proof. lia. Qed.

(** *** AuthAPI *)

(** [logout()]: the value of the promise is the parsed answer of the
    backend, or [undefined] when the call failed. *)
Definition logout (c : RawfinAPI) : M (option Json) :=
  setAuthToken None ;*
  setUserData None ;*
  try_catch
    (let* answer := request c "/auth/logout" post in
     ret (Some answer))
    (λ error,
       console_error "Logout API error:" (LogThrown error) ;*
       ret None).

(** [getProfile()].  The handler calls [logout()] without awaiting it;
    its storage writes and its [fetch] happen before the failure is
    thrown again, the rest of it is run here at once: in the trace the
    events of that rest come before what the caller does with the
    failure, where the page has them after. *)
Definition getProfile (c : RawfinAPI) : M Json :=
  try_catch
    (let* data := request c "/auth/profile" no_options in
     setUserData (Some data) ;*
     ret data)
    (λ error,
       logout c ;*
       throw error).

(** *** EpisodesAPI *)

(** The values a caller may pass as a limit, whatever they are, and the
    text a template literal makes of one of them; the conversion is the
    platform's, and it throws on a value that has no text. *)
Variable Value : Type.
Variable Value_toString : Value → string + DOMError.

(** [getRecent(limit = 6)]: an argument that is left out is the number
    6, whose text is [6]. *)
Definition getRecent (c : RawfinAPI) (limit : option Value) : M Json :=
  let* text :=
    match limit with
    | Some v =>
        match Value_toString v with
        | inl text => ret text
        | inr error => throw (Native error)
        end
    | None => ret "6"
    end in
  request c ("/episodes/recent?limit=" +:+ text) no_options.

(** *** The OAuth callback, at page load *)

(** [window.location]: the path and the parsed query parameters. *)
Record Location := { pathname : string; search : list (string * string) }.

(** [params.get(name)]: the first value of that name, or [null]. *)
Fixpoint params_get (params : list (string * string)) (name : string) : option string :=
  match params with
  | [] => None
  | (k, v) :: rest => if String.eqb k name then Some v else params_get rest name
  end.

(** [window.showNotification(message, type)]: the toast is shown and
    its removal is scheduled. *)
Definition showNotification (message kind : string) : M unit :=
  emit (EvNotification message kind) ;*
  let* _ := setTimeout DismissNotification 5000 in
  ret tt.

Definition auth_callback (c : RawfinAPI) (loc : Location) : M unit :=
  if includes (pathname loc) "/auth/callback"
  then
    let token := params_get (search loc) "token" in
    let error := params_get (search loc) "error" in
    if truthy_str token
    then
      setAuthToken token ;*
      try_catch
        (getProfile c ;*
         navigate "/")
        (λ reason, emit (EvUnhandledRejection reason))
    else if truthy_str error
    then
      console_error "Auth error:" (LogText (default EmptyString error)) ;*
      showNotification "Authentication failed. Please try again." "error" ;*
      let* _ := setTimeout (GoTo "/") 3000 in
      ret tt
    else ret tt
  else ret tt.

(** *** The stored profile *)

(** [JSON.parse]: the value, or the [SyntaxError] it throws. *)
Variable JSON_parse : string → Json + DOMError.

(** [getUserData()]. *)
Definition getUserData : M Json :=
  let* data := localStorage_getItem user_key in
  match data with
  | Some text =>
      if nonempty text
      then match JSON_parse text with
           | inl value => ret value
           | inr error => throw (Native error)
           end
      else ret JNull
  | None => ret JNull
  end.

(** [getCurrentUser()]. *)
Definition getCurrentUser : M Json := getUserData.

(** [String(value)], as [localStorage.setItem] applies it to a value
    that is not a string; the conversion is the platform's, and it
    throws on a value that has no text. *)
Variable String_of : Json → string + DOMError.

(** [setAuthToken(token)] on any value: a truthy one is stored as a
    string, a string as it is; anything else removes the token. *)
Definition setAuthToken_any (token : option Json) : M unit :=
  match token with
  | Some (JStr t) =>
      if nonempty t then localStorage_setItem token_key t
      else localStorage_removeItem token_key
  | Some j =>
      if truthy j
      then match String_of j with
           | inl text => localStorage_setItem token_key text
           | inr error => throw (Native error)
           end
      else localStorage_removeItem token_key
  | None => localStorage_removeItem token_key
  end.

(** [refreshToken()]; [logout()] is not awaited, as in [getProfile]. *)
Definition refreshToken (c : RawfinAPI) : M Json :=
  try_catch
    (let* data := request c "/auth/refresh" post in
     let* token := property_token data in
     setAuthToken_any token ;*
     ret data)
    (λ error,
       logout c ;*
       throw error).

(** *** NewsletterAPI and SearchAPI *)

(** [subscribe(email)]. *)
Definition subscribe (c : RawfinAPI) (email : string) : M Json :=
  request c "/newsletter/subscribe"
    {| opt_method := Some "POST";
       opt_headers := None;
       opt_body := Some (JSON_stringify (JObj [("email", JStr email)])) |}.

(** [getStatus(email)]. *)
Definition getStatus (c : RawfinAPI) (email : string) : M Json :=
  request c ("/newsletter/status?email=" +:+ encodeURIComponent email) no_options.

(** [suggestions(query)]: the parameters are the one pair [q=query]. *)
Definition suggestions (c : RawfinAPI) (query : string) : M Json :=
  let params := "q=" +:+ form_urlencode query in
  request c ("/search/suggestions?" +:+ params) no_options.

End Client.

Arguments getRecent net {Value} Value_toString c limit.

(** ** Observations on a trace *)

(** The backoff delays that were awaited. *)
Definition delays (tr : list Event) : list Z :=
  omap (λ ev, match ev with
              | EvSetTimeout _ ms ResolveDelay => Some ms
              | _ => None
              end) tr.

(** The calls of [fetch] that were issued. *)
Definition fetches (tr : list Event) : list Event :=
  omap (λ ev, match ev with
              | EvFetch _ _ _ _ => Some ev
              | _ => None
              end) tr.

(** The errors written to the console. *)
Definition console_errors (tr : list Event) : list (string * LogArg) :=
  omap (λ ev, match ev with
              | EvConsoleError label arg => Some (label, arg)
              | _ => None
              end) tr.

(** The error [request] makes of a cancellation. *)
Definition is_timeout (error : Thrown) : bool :=
  match error with
  | APIError message status _ => String.eqb message "Request timeout" && (status =? 408)
  | Native _ => false
  end.

(** [decodeURIComponent], on escapes as [encodeURIComponent] writes
    them. *)
Definition hex_value (c : ascii) : N :=
  let n := N_of_ascii c in
  (if n <=? 57 then n - 48 else n - 55)%N.

Fixpoint percent_decode (s : string) : string :=
  match s with
  | EmptyString => EmptyString
  | String c rest =>
      if Ascii.eqb c "%"
      then match rest with
           | String h (String l rest') =>
               String (ascii_of_N (16 * hex_value h + hex_value l)) (percent_decode rest')
           | _ => String c (percent_decode rest)
           end
      else String c (percent_decode rest)
  end.

(** ** Page utilities *)

(** What happens to a wrapped function: it is called, or one of its
    timers goes off. *)
Inductive Input (A : Type) :=
| Call (a : A)
| Tick (id : nat).
Arguments Call {A} a.
Arguments Tick {A} id.

(** The arguments of the calls among the inputs. *)
Definition calls {A} (inputs : list (Input A)) : list A :=
  omap (λ i, match i with Call a => Some a | Tick _ => None end) inputs.

(** How many timers went off, armed or not. *)
Definition ticks {A} (inputs : list (Input A)) : nat :=
  length (omap (λ i, match i with Call _ => None | Tick id => Some id end) inputs).

(** The closure of [throttle(func, limit)]: its flag, the timers it has
    armed, and the arguments [func] was applied to so far. *)
Record Throttled (A : Type) := mkThrottled {
  inThrottle : bool;
  th_timers : gmap nat Z;
  th_next : nat;
  th_applied : list A
}.
Arguments mkThrottled {A}.
Arguments inThrottle {A}.
Arguments th_timers {A}.
Arguments th_next {A}.
Arguments th_applied {A}.

(** The closure of [debounce(func, wait)]: the [timeout] variable, the
    armed timers with the arguments their callback holds, and the
    arguments [func] was applied to so far. *)
Record Debounced (A : Type) := mkDebounced {
  db_timeout : option nat;
  db_timers : gmap nat (Z * A);
  db_next : nat;
  db_applied : list A
}.
Arguments mkDebounced {A}.
Arguments db_timeout {A}.
Arguments db_timers {A}.
Arguments db_next {A}.
Arguments db_applied {A}.

(** [clearTimeout(id)], where [id] may be [undefined]. *)
Definition clear {V} (id : option nat) (timers : gmap nat V) : gmap nat V :=
  match id with
  | Some i => delete i timers
  | None => timers
  end.

Section Utilities.

Context {A : Type}.

(** Whether [func] returns on these arguments, rather than throws. *)
Variable returns : A → bool.

(** [let inThrottle;] *)
Definition throttle : Throttled A := mkThrottled false ∅ 0 [].

(** A call of the function [throttle(func, limit)] returned.  When
    [func] throws, the flag is not set and no timer is armed. *)
Definition throttle_call (limit : Z) (a : A) (s : Throttled A) : Throttled A :=
  if inThrottle s then s
  else if returns a
  then mkThrottled true (<[th_next s := limit]> (th_timers s)) (S (th_next s))
         (th_applied s ++ [a])
  else mkThrottled (inThrottle s) (th_timers s) (th_next s) (th_applied s ++ [a]).

(** The callback [() => inThrottle = false] of an armed timer. *)
Definition throttle_tick (id : nat) (s : Throttled A) : Throttled A :=
  match th_timers s !! id with
  | Some _ => mkThrottled false (delete id (th_timers s)) (th_next s) (th_applied s)
  | None => s
  end.

Definition throttle_step (limit : Z) (s : Throttled A) (i : Input A) : Throttled A :=
  match i with
  | Call a => throttle_call limit a s
  | Tick id => throttle_tick id s
  end.

(** [let timeout;] *)
Definition debounce : Debounced A := mkDebounced None ∅ 0 [].

(** A call of the function [debounce(func, wait)] returned. *)
Definition debounce_call (wait : Z) (a : A) (s : Debounced A) : Debounced A :=
  mkDebounced (Some (db_next s))
    (<[db_next s := (wait, a)]> (clear (db_timeout s) (db_timers s)))
    (S (db_next s)) (db_applied s).

(** The callback [later] of an armed timer. *)
Definition debounce_tick (id : nat) (s : Debounced A) : Debounced A :=
  match db_timers s !! id with
  | Some (_, a) =>
      mkDebounced (db_timeout s) (clear (db_timeout s) (delete id (db_timers s)))
        (db_next s) (db_applied s ++ [a])
  | None => s
  end.

Definition debounce_step (wait : Z) (s : Debounced A) (i : Input A) : Debounced A :=
  match i with
  | Call a => debounce_call wait a s
  | Tick id => debounce_tick id s
  end.

End Utilities.

(** The closure after the inputs, from its creation. *)
Definition throttle_run {A} (returns : A → bool) (limit : Z) (inputs : list (Input A)) :
    Throttled A :=
  fold_left (throttle_step returns limit) inputs throttle.

Definition debounce_run {A} (wait : Z) (inputs : list (Input A)) : Debounced A :=
  fold_left (debounce_step wait) inputs debounce.

(** The headers after the bearer token, if there is one, is written
    into them. *)
Definition with_bearer (token : option string) (h : gmap string string) :
    gmap string string :=
  match token with
  | Some t => if nonempty t then <["Authorization" := "Bearer " +:+ t]> h else h
  | None => h
  end.

(** What [request] makes of the answer of the transport. *)
Definition settled (o : FetchOutcome) : Result Json :=
  match o with
  | FetchRejects e =>
      if String.eqb (err_name e) "AbortError"
      then Throw (APIError "Request timeout" 408 empty_object)
      else Throw (Native e)
  | FetchResolves s b =>
      if (200 <=? s) && (s <=? 299)
      then match b with
           | BodyJson d => Return d
           | BodyRejects e =>
               if String.eqb (err_name e) "AbortError"
               then Throw (APIError "Request timeout" 408 empty_object)
               else Throw (Native e)
           end
      else Throw (APIError ("API Error: " +:+ pretty s) s
                    match b with
                    | BodyJson d => d
                    | BodyRejects _ => empty_object
                    end)
  end.

(** The answers that make [request] fail with an [APIError] whose
    status is at least 500 or exactly 429. *)
Definition retryable (o : FetchOutcome) : bool :=
  match o with
  | FetchRejects _ => false
  | FetchResolves s _ => (500 <=? s) || (s =? 429)
  end.

(** The world after the retry of attempt [a] was announced and its
    backoff delay has elapsed. *)
Definition backed_off (c : RawfinAPI) (a : nat) (w : World) : World :=
  snd ((console_log ("Retrying request (attempt " +:+ pretty (a + 1)%nat +:+ ")...") ;*
        delay (retryDelay c * Z.of_nat a)) w).

(** The toasts that were shown. *)
Definition notifications (tr : list Event) : list (string * string) :=
  omap (λ ev, match ev with
              | EvNotification message kind => Some (message, kind)
              | _ => None
              end) tr.

(** The world once [logout] has cleared the session. *)
Definition signed_out (w : World) : World :=
  set_storage (λ st, delete user_key (delete token_key st)) w.

(** *** Scenarios *)

(** A fresh page: nothing stored, nothing allocated, nothing sent. *)
Definition initial_world : World := mkWorld ∅ ∅ ∅ 0 0 [].

(** A fresh page in which the caller holds one headers object, at
    reference 0. *)
Definition world_with_headers (h : gmap string string) : World :=
  mkWorld ∅ {[ 0%nat := h ]} ∅ 0 0 [].

(** A transport that gives the same answer to every call. *)
Definition always (o : FetchOutcome) : nat → FetchOutcome := λ _, o.

(** The backend answers every call with 200 and an empty object. *)
Definition ok_net : nat → FetchOutcome :=
  always (FetchResolves 200 (BodyJson empty_object)).

(** A transport that gives the listed answers in turn, then [o]. *)
Definition answers (l : list FetchOutcome) (o : FetchOutcome) : nat → FetchOutcome :=
  λ k, default o (l !! k).

(** A serializer for the scenarios, exact on the values they store:
    [null], booleans, integers below 10^21 and the empty object. *)
Definition scenario_stringify (j : Json) : string :=
  match j with
  | JNull => "null"
  | JBool true => "true"
  | JBool false => "false"
  | JNum z => pretty z
  | _ => "{}"
  end.

(** [String(value)] for the scenarios, exact on [null] and booleans;
    the scenarios convert nothing else. *)
Definition scenario_String (j : Json) : string + DOMError :=
  match j with
  | JNull => inl "null"
  | JBool true => inl "true"
  | JBool false => inl "false"
  | _ => inr {| err_name := "TypeError";
                err_message := "Cannot convert object to primitive value" |}
  end.

(** The text of an integer limit below 10^21: its decimal digits. *)
Definition decimal_limit (z : Z) : string + DOMError := inl (pretty z).

(** The server fails twice with 503, then answers. *)
Definition flaky_net : nat → FetchOutcome :=
  answers [FetchResolves 503 (BodyJson JNull); FetchResolves 503 (BodyJson JNull)]
    (FetchResolves 200 (BodyJson (JStr "episodes"))).

(** What [fetch] throws when the connection is refused. *)
Definition connection_refused : DOMError :=
  {| err_name := "TypeError"; err_message := "Failed to fetch" |}.

(** What [fetch] throws when its signal is aborted. *)
Definition cancelled : DOMError :=
  {| err_name := "AbortError"; err_message := "The operation was aborted." |}.

(** The page at [/auth/callback?token=abc]. *)
Definition callback_with_token : Location :=
  {| pathname := "/auth/callback"; search := [("token", "abc")] |}.

(** A page that holds a token and one headers object, at reference 0. *)
Definition signed_in_world : World :=
  mkWorld {[ token_key := "abc" ]} {[ 0%nat := {[ "Accept" := "application/json" ]} ]}
          ∅ 0 0 [].

(** Options whose headers are the object at reference 0. *)
Definition with_own_headers : Options :=
  {| opt_method := None; opt_headers := Some 0%nat; opt_body := None |}.

(** That page after a request made with those options, then [logout]. *)
Definition signed_out_again : World :=
  snd (logout ok_net scenario_stringify new_RawfinAPI
         (snd (request ok_net new_RawfinAPI "/episodes/featured" with_own_headers
                 signed_in_world))).

(** The client with another base origin. *)
Definition at_origin (origin : string) : RawfinAPI :=
  {| baseURL := origin; timeout := 10000; retryAttempts := 3; retryDelay := 1000 |}.

(** *** Readings of the specification that the code does not meet *)

(** Without a stored token, no call of [fetch] carries an Authorization
    header. *)
Definition authorization_only_with_token (net : nat → FetchOutcome) (c : RawfinAPI)
    (ep : string) (o : Options) (w : World) : Prop :=
  truthy_str (storage w !! token_key) = false →
  ∀ url m h b,
    EvFetch url m h b ∈ fetches (trace (snd (request net c ep o w))) →
    h !! "Authorization" = None.

(** Whenever [getProfile] succeeds, the profile it returns is in the
    store. *)
Definition stores_fetched_profile (net : nat → FetchOutcome)
    (JSON_stringify : Json → string) (c : RawfinAPI) (w : World) : Prop :=
  ∀ d,
    fst (getProfile net JSON_stringify c w) = Return d →
    storage (snd (getProfile net JSON_stringify c w)) !! user_key = Some (JSON_stringify d).

(** Whenever the callback URL carries a token parameter, the profile is
    fetched. *)
Definition token_parameter_starts_session (net : nat → FetchOutcome)
    (JSON_stringify : Json → string) (c : RawfinAPI) (loc : Location) (w : World) : Prop :=
  includes (pathname loc) "/auth/callback" = true →
  ∀ t,
    params_get (search loc) "token" = Some t →
    (fetched w < fetched (snd (auth_callback net JSON_stringify c loc w)))%nat.

(** The places the page was sent to. *)
Definition navigations (tr : list Event) : list string :=
  omap (λ ev, match ev with
              | EvNavigate url => Some url
              | _ => None
              end) tr.

(** The value of [data.token] where reading it does not throw. *)
Definition token_of (data : Json) : option Json :=
  match data with
  | JObj fields => get_field fields "token"
  | _ => None
  end.

(** A parser for the scenarios, exact on the texts they store. *)
Definition scenario_parse (text : string) : Json + DOMError :=
  if String.eqb text "{}" then inl empty_object
  else if String.eqb text "null" then inl JNull
  else inr {| err_name := "SyntaxError"; err_message := "Unexpected token" |}.

(** The backend answers every call with a new token. *)
Definition refreshing_net : nat → FetchOutcome :=
  always (FetchResolves 200 (BodyJson (JObj [("token", JStr "fresh")]))).

(** The backend answers every call with 503. *)
Definition failing_net : nat → FetchOutcome :=
  always (FetchResolves 503 (BodyJson empty_object)).

(** The backend answers every call with 502 and a page that is not JSON. *)
Definition bad_gateway_net : nat → FetchOutcome :=
  always (FetchResolves 502
            (BodyRejects {| err_name := "SyntaxError"; err_message := "Unexpected token <" |})).

(** The backend answers every call with 200 and a page that is not JSON. *)
Definition not_json_net : nat → FetchOutcome :=
  always (FetchResolves 200
            (BodyRejects {| err_name := "SyntaxError"; err_message := "Unexpected token <" |})).

(** The backend answers every call with 200 and [null]. *)
Definition null_net : nat → FetchOutcome :=
  always (FetchResolves 200 (BodyJson JNull)).

(** ** The request primitive, step by step *)

Ltac exec :=
  cbv [request bind try_catch ret throw emit fetch clearTimeout
       setTimeout alloc_headers own_entries set_header getAuthToken localStorage_getItem
       console_error response_json new_APIError log_event set_heap set_storage
       ok resp_status resp_body];
  simpl.

(** Case analysis on what a run of [request] depends on: the stored
    token, the answer of the transport, the status class and the name of
    a platform error. *)
Ltac cases :=
  repeat
    (simpl;
     match goal with
     | |- context [storage ?w !! token_key] =>
         destruct (storage w !! token_key) as [?t|] eqn:?
     | |- context [nonempty ?t] => destruct (nonempty t) eqn:?
     | |- context [match ?net ?k with FetchRejects _ => _ | FetchResolves _ _ => _ end] =>
         destruct (net k) as [?e|?s ?b] eqn:?
     | |- context [(200 <=? ?s) && (?s <=? 299)] =>
         destruct ((200 <=? s) && (s <=? 299)) eqn:?
     | |- context [match ?b with BodyJson _ => _ | BodyRejects _ => _ end] =>
         destruct b as [?d|?e]
     | |- context [String.eqb (err_name ?e) ?n] =>
         destruct (String.eqb (err_name e) n) eqn:?
     end);
  simpl.

Section RequestFacts.

Variable net : nat → FetchOutcome.

Lemma request_storage c ep o w :
  storage (snd (request net c ep o w)) = storage w.
Proof. exec. cases; done. Qed.

Lemma request_fetched c ep o w :
  fetched (snd (request net c ep o w)) = S (fetched w).
Proof. exec. cases; done. Qed.

Lemma request_next_timer c ep o w :
  next_timer (snd (request net c ep o w)) = S (next_timer w).
Proof. exec. cases; done. Qed.

Lemma request_timers c ep o w :
  timers (snd (request net c ep o w)) = delete (next_timer w) (timers w).
Proof.
  exec. cases; rewrite ?delete_delete_eq, delete_insert_eq; done.
Qed.

Lemma request_result c ep o w :
  fst (request net c ep o w) = settled (net (fetched w)).
Proof. exec. unfold settled. cases; done. Qed.

Lemma request_delays c ep o w :
  delays (trace (snd (request net c ep o w))) = delays (trace w).
Proof.
  exec. cases; unfold delays; rewrite !omap_app; simpl; rewrite ?app_nil_r; done.
Qed.

(** The one call of [fetch] that [request] issues, when the headers the
    caller passes, if any, are an allocated object. *)
Lemma request_fetches c ep o w :
  (∀ l, opt_headers o = Some l → is_Some (heap w !! l)) →
  fetches (trace (snd (request net c ep o w))) =
    (fetches (trace w) ++
     [EvFetch (baseURL c +:+ ep)
        (default (or_else (opt_method o) "GET") (opt_method o))
        (with_bearer (storage w !! token_key)
           match opt_headers o with
           | Some l => deref w l
           | None => {[ "Content-Type" := "application/json" ]}
           end)
        (opt_body o)])%list.
Proof.
  intros Hwf. destruct o as [m [l|] bd]; simpl in *.
  - assert (Hne : fresh (dom (heap w)) ≠ l).
    { intros <-. apply (is_fresh (dom (heap w))), elem_of_dom, Hwf. done. }
    exec. cases; unfold fetches; rewrite !omap_app; simpl; rewrite ?app_nil_r.
    all: do 3 f_equal; try (by destruct bd).
    all: unfold deref; simpl;
      rewrite ?lookup_insert_eq; simpl; rewrite ?lookup_insert_ne by done; done.
  - exec. cases; unfold fetches; rewrite !omap_app; simpl; rewrite ?app_nil_r.
    all: do 3 f_equal; try (by destruct bd).
    all: unfold deref; simpl;
      rewrite ?lookup_insert_eq; simpl; rewrite ?lookup_insert_eq; simpl;
      rewrite ?(left_id_L ∅ (∪)); done.
Qed.

Lemma request_notifications c ep o w :
  notifications (trace (snd (request net c ep o w))) = notifications (trace w).
Proof.
  exec. cases; unfold notifications; rewrite !omap_app; simpl; rewrite ?app_nil_r; done.
Qed.

Lemma shouldRetry_settled o e :
  settled o = Throw e → shouldRetry e = retryable o.
Proof.
  destruct o as [e0|s b]; simpl.
  - destruct (String.eqb _ _); intros [= <-]; done.
  - destruct ((200 <=? s) && (s <=? 299)) eqn:Hs.
    + assert ((500 <=? s) || (s =? 429) = false) as -> by lia.
      destruct b as [d|e0]; [done|].
      destruct (String.eqb _ _); intros [= <-]; done.
    + intros [= <-]. done.
Qed.

Lemma retryable_request c ep o w :
  retryable (net (fetched w)) = true ↔
  ∃ m s d, fst (request net c ep o w) = Throw (APIError m s d) ∧ (500 ≤ s ∨ s = 429).
Proof.
  rewrite request_result. split.
  - unfold retryable, settled. destruct (net (fetched w)) as [e|s b]; [done|].
    intros H. apply orb_true_iff in H.
    assert ((200 <=? s) && (s <=? 299) = false) as -> by lia.
    eexists _, s, _. split; [done | lia].
  - intros (m & s & d & Hs & Hr).
    rewrite <- (shouldRetry_settled _ _ Hs). simpl. lia.
Qed.

(** *** One turn of the retry loop *)

Lemma requestWithRetry_gives_up c ep o a w :
  ¬ (a < retryAttempts c)%nat ∨ retryable (net (fetched w)) = false →
  requestWithRetry net c ep o a w = request net c ep o w.
Proof.
  intros H. rewrite requestWithRetry_equation_1. unfold try_catch.
  pose proof (request_result c ep o w) as Hr.
  destruct (request net c ep o w) as [[d|e] w1]; [done|]. simpl in Hr.
  symmetry in Hr. apply shouldRetry_settled in Hr.
  destruct (decide (a < retryAttempts c)%nat); [|done].
  destruct H as [H|H]; [done|]. rewrite Hr, H. done.
Qed.

Lemma requestWithRetry_retries c ep o a w :
  (a < retryAttempts c)%nat →
  retryable (net (fetched w)) = true →
  requestWithRetry net c ep o a w =
    requestWithRetry net c ep o (a + 1) (backed_off c a (snd (request net c ep o w))).
Proof.
  intros Ha H. rewrite requestWithRetry_equation_1. unfold try_catch at 1.
  pose proof (request_result c ep o w) as Hr.
  destruct (request net c ep o w) as [[d|e] w1]; simpl in Hr.
  - destruct (net (fetched w)) as [?|s b]; [done|]. simpl in *.
    assert ((200 <=? s) && (s <=? 299) = false) as Hs by lia.
    rewrite Hs in Hr. done.
  - symmetry in Hr. apply shouldRetry_settled in Hr.
    destruct (decide (a < retryAttempts c)%nat); [|done].
    rewrite Hr, H. done.
Qed.

Lemma backed_off_fetched c a w : fetched (backed_off c a w) = fetched w.
Proof. done. Qed.

Lemma backed_off_delays c a w :
  delays (trace (backed_off c a w)) = (delays (trace w) ++ [retryDelay c * Z.of_nat a])%list.
Proof.
  unfold backed_off, delays. simpl. rewrite !omap_app. simpl.
  rewrite !app_nil_r. done.
Qed.

(** The loop from attempt [a] on: [j] answers that are retried, then one
    that is not. *)
Lemma retry_from c ep o j : ∀ a w,
  (∀ i, (i < j)%nat →
        (a + i < retryAttempts c)%nat ∧ retryable (net (fetched w + i)) = true) →
  ¬ (a + j < retryAttempts c)%nat ∨ retryable (net (fetched w + j)) = false →
  ∃ w_last,
    requestWithRetry net c ep o a w = request net c ep o w_last ∧
    fetched w_last = (fetched w + j)%nat ∧
    delays (trace w_last) =
      (delays (trace w) ++ map (λ n, retryDelay c * Z.of_nat n) (seq a j))%list.
Proof.
  induction j as [|j IH]; intros a w Hretry Hlast.
  - exists w. rewrite !Nat.add_0_r in Hlast. simpl. rewrite app_nil_r.
    split_and!; [by apply requestWithRetry_gives_up | lia | done].
  - destruct (Hretry 0%nat) as [Ha H0]; [lia|]. rewrite !Nat.add_0_r in *.
    rewrite requestWithRetry_retries by done.
    set (w2 := backed_off c a (snd (request net c ep o w))).
    assert (fetched w2 = S (fetched w)) as Hf.
    { unfold w2. by rewrite backed_off_fetched, request_fetched. }
    destruct (IH (a + 1)%nat w2) as (w_last & Hrun & Hfl & Hdl).
    + intros i Hi. destruct (Hretry (S i)) as [? ?]; [lia|].
      rewrite Hf. split; [lia|]. by replace (S (fetched w) + i)%nat with (fetched w + S i)%nat by lia.
    + rewrite Hf. replace (a + 1 + j)%nat with (a + S j)%nat by lia.
      by replace (S (fetched w) + j)%nat with (fetched w + S j)%nat by lia.
    + exists w_last. split_and!; [done | lia |].
      rewrite Hdl. unfold w2. rewrite backed_off_delays, request_delays.
      rewrite <- app_assoc. simpl. by rewrite Nat.add_1_r.
Qed.

(** The loop ends, after at least one call and no more calls than there
    are attempts left. *)
Lemma requestWithRetry_calls c ep o n : ∀ a w,
  (retryAttempts c - a)%nat = n →
  (fetched w < fetched (snd (requestWithRetry net c ep o a w)) ≤ fetched w + S n)%nat.
Proof.
  induction n as [|n IH]; intros a w Hn.
  - rewrite requestWithRetry_gives_up, request_fetched by (left; lia). lia.
  - destruct (retryable (net (fetched w))) eqn:Hr.
    + rewrite requestWithRetry_retries by (done || lia).
      specialize (IH (a + 1)%nat (backed_off c a (snd (request net c ep o w)))).
      rewrite backed_off_fetched, request_fetched in IH. lia.
    + rewrite requestWithRetry_gives_up, request_fetched by (by right). lia.
Qed.

(** The headers object of the caller is the one that is sent: the token
    is written into it and stays there after the call. *)
Lemma request_writes_caller_headers c ep o w l t :
  opt_headers o = Some l →
  is_Some (heap w !! l) →
  storage w !! token_key = Some t →
  nonempty t = true →
  deref (snd (request net c ep o w)) l = <["Authorization" := "Bearer " +:+ t]> (deref w l).
Proof.
  intros Hl Hwf Ht Hne. destruct o as [m l' bd]; simpl in *; subst.
  assert (Hfresh : fresh (dom (heap w)) ≠ l).
  { intros <-. by apply (is_fresh (dom (heap w))), elem_of_dom. }
  exec. rewrite Ht, Hne. cases.
  all: unfold deref; simpl; rewrite lookup_insert_eq; simpl;
    by rewrite lookup_insert_ne.
Qed.

End RequestFacts.

(** ** Retry policy *)

Section RetryPolicy.

Variable net : nat → FetchOutcome.


(** C2. A failure of [request] that is an [APIError] of status 408 or of
    any 4xx status other than 429 is not retried: there is one call, and
    the caller gets that very error. *)
Theorem requestWithRetry_client_error c ep o w m s d :
  fst (request net c ep o w) = Throw (APIError m s d) →
  s = 408 ∨ (400 ≤ s ≤ 499 ∧ s ≠ 429) →
  requestWithRetry net c ep o 1 w = request net c ep o w ∧
  fst (requestWithRetry net c ep o 1 w) = Throw (APIError m s d) ∧
  fetched (snd (requestWithRetry net c ep o 1 w)) = S (fetched w).
Proof.
  intros Hfail Hs.
  assert (requestWithRetry net c ep o 1 w = request net c ep o w) as Hone.
  { apply requestWithRetry_gives_up. right.
    rewrite request_result in Hfail.
    rewrite <- (shouldRetry_settled _ _ Hfail). simpl. lia. }
  rewrite Hone, request_fetched. done.
Qed.

(** C3. A failure of the transport that is not a cancellation reaches
    the caller of [request] as the very error the transport raised, not
    wrapped; the timer of the call is no longer armed; and
    [requestWithRetry] stops after that one call with the same error. *)
Theorem request_transport_failure c ep o w e :
  net (fetched w) = FetchRejects e →
  err_name e ≠ "AbortError" →
  fst (request net c ep o w) = Throw (Native e) ∧
  timers (snd (request net c ep o w)) !! next_timer w = None ∧
  requestWithRetry net c ep o 1 w = request net c ep o w ∧
  fetched (snd (requestWithRetry net c ep o 1 w)) = S (fetched w).
Proof.
  intros Hnet Hname.
  assert (requestWithRetry net c ep o 1 w = request net c ep o w) as Hone.
  { apply requestWithRetry_gives_up. right. by rewrite Hnet. }
  rewrite Hone, request_result, request_timers, request_fetched, Hnet. simpl.
  apply String.eqb_neq in Hname. rewrite Hname, lookup_delete_eq. done.
Qed.

(** C4. A cancellation reported by the transport makes [request] fail
    with [APIError("Request timeout", 408, {})], whatever message the
    cancellation carries. *)
Theorem request_timeout c ep o w e :
  net (fetched w) = FetchRejects e →
  err_name e = "AbortError" →
  fst (request net c ep o w) = Throw (APIError "Request timeout" 408 empty_object).
Proof.
  intros Hnet Hname. rewrite request_result, Hnet. simpl.
  apply String.eqb_eq in Hname. by rewrite Hname.
Qed.

End RetryPolicy.

(** ** Headers *)

Section Headers.

Variable net : nat → FetchOutcome.

Lemma merged_authorization (hp : gmap nat (gmap string string)) (l : option nat) (f : nat) :
  default ∅ (<[f := from_option (λ l0, default ∅ (hp !! l0)) ∅ l
                    ∪ {[ "Content-Type" := "application/json" ]}]> hp
             !! default f l) !! "Authorization"
  = from_option (λ l0, default ∅ (hp !! l0)) ∅ l !! "Authorization".
Proof.
  destruct l as [l|]; simpl.
  - rewrite lookup_insert. case_decide as Hfl; [|done]. subst. simpl.
    by rewrite lookup_union_l.
  - rewrite lookup_insert_eq. simpl. by rewrite lookup_union_l.
Qed.

(** Whether the one call of [fetch] carries an Authorization header,
    for headers that are a plain object or left out. *)
Lemma request_authorization_header c ep o w :
  ∃ h,
    fetches (trace (snd (request net c ep o w))) =
      (fetches (trace w) ++
       [EvFetch (baseURL c +:+ ep)
          (default (or_else (opt_method o) "GET") (opt_method o)) h (opt_body o)])%list ∧
    h !! "Authorization" =
      match storage w !! token_key with
      | Some t =>
          if nonempty t then Some ("Bearer " +:+ t)
          else from_option (deref w) ∅ (opt_headers o) !! "Authorization"
      | None => from_option (deref w) ∅ (opt_headers o) !! "Authorization"
      end.
Proof.
  destruct o as [m l bd]; simpl. exec.
  cases.
  all: eexists; split;
    [ unfold fetches; rewrite !omap_app; simpl; rewrite ?app_nil_r;
      do 3 f_equal; by destruct bd | ].
  all: unfold deref; simpl; rewrite ?lookup_insert_eq; simpl;
    rewrite ?lookup_insert_eq; try done.
  all: apply merged_authorization.
Qed.

(** C6, amended.  For a caller that passes no headers, or a plain object
    of headers: [request] issues one call of [fetch]; with a non-empty
    token in the store its headers carry [Authorization: Bearer <token>];
    with no token, or an empty one, and no Authorization header among
    the headers the caller passes, they carry none.  Nothing is said of
    headers that already carry one when no token is stored. *)
Theorem request_authorization c ep o w :
  ∃ h,
    fetches (trace (snd (request net c ep o w))) =
      (fetches (trace w) ++
       [EvFetch (baseURL c +:+ ep)
          (default (or_else (opt_method o) "GET") (opt_method o)) h (opt_body o)])%list ∧
    if truthy_str (storage w !! token_key)
    then h !! "Authorization" = (λ t, "Bearer " +:+ t) <$> storage w !! token_key
    else match from_option (deref w) ∅ (opt_headers o) !! "Authorization" with
         | None => h !! "Authorization" = None
         | Some _ => True
         end.
Proof.
  destruct (request_authorization_header c ep o w) as (h & Hfetch & Hauth).
  exists h. split; [done|]. rewrite Hauth.
  destruct (storage w !! token_key) as [t|]; simpl; [destruct (nonempty t)|]; simpl;
    try done; by destruct (from_option (deref w) ∅ (opt_headers o) !! "Authorization").
Qed.

End Headers.

(** ** The auth session *)

Section Session.

Variable net : nat → FetchOutcome.
Variable JSON_stringify : Json → string.

(** [logout] clears the session, then asks the backend. *)
Lemma logout_unfold c w :
  logout net JSON_stringify c w =
    match request net c "/auth/logout" post (signed_out w) with
    | (Return answer, w1) => (Return (Some answer), w1)
    | (Throw error, w1) =>
        (Return None, log_event (EvConsoleError "Logout API error:" (LogThrown error)) w1)
    end.
Proof.
  unfold logout, bind, try_catch. simpl.
  change (set_storage (delete user_key) (set_storage (delete token_key) w))
    with (signed_out w).
  by destruct (request net c "/auth/logout" post (signed_out w)) as [[?|?] ?].
Qed.

Lemma logout_storage c w :
  storage (snd (logout net JSON_stringify c w)) = delete user_key (delete token_key (storage w)).
Proof.
  rewrite logout_unfold.
  pose proof (request_storage net c "/auth/logout" post (signed_out w)) as Hs.
  by destruct (request net c "/auth/logout" post (signed_out w)) as [[?|?] ?].
Qed.

Lemma logout_notifications c w :
  notifications (trace (snd (logout net JSON_stringify c w))) = notifications (trace w).
Proof.
  rewrite logout_unfold.
  pose proof (request_notifications net c "/auth/logout" post (signed_out w)) as Hs.
  destruct (request net c "/auth/logout" post (signed_out w)) as [[?|?] ?]; simpl in *; [done|].
  unfold notifications in *. rewrite omap_app. simpl. by rewrite app_nil_r.
Qed.

Lemma logout_returns c w : ∃ v, fst (logout net JSON_stringify c w) = Return v.
Proof.
  rewrite logout_unfold.
  destruct (request net c "/auth/logout" post (signed_out w)) as [[?|?] ?]; by eexists.
Qed.

(** [getProfile] stores what it fetched, or runs [logout] on a failure. *)
Lemma getProfile_unfold c w :
  getProfile net JSON_stringify c w =
    match request net c "/auth/profile" no_options w with
    | (Return d, w1) => (Return d, snd (setUserData JSON_stringify (Some d) w1))
    | (Throw error, w1) => (Throw error, snd (logout net JSON_stringify c w1))
    end.
Proof.
  unfold getProfile, try_catch, bind.
  destruct (request net c "/auth/profile" no_options w) as [[d|e] w1]; simpl.
  - unfold setUserData. by destruct (truthy d).
  - destruct (logout_returns c w1) as [v Hv].
    by destruct (logout net JSON_stringify c w1) as [[?|?] w2]; simplify_eq/=.
Qed.

(** C7. [logout] never throws; when it is done, neither the token nor
    the profile is in the store, whatever the backend answered; a failed
    call is logged and [logout] resolves all the same. *)
Theorem logout_always_clears c w :
  (∃ v, fst (logout net JSON_stringify c w) = Return v) ∧
  storage (snd (logout net JSON_stringify c w)) !! token_key = None ∧
  storage (snd (logout net JSON_stringify c w)) !! user_key = None ∧
  match settled (net (fetched w)) with
  | Return answer => fst (logout net JSON_stringify c w) = Return (Some answer)
  | Throw error =>
      fst (logout net JSON_stringify c w) = Return None ∧
      last (trace (snd (logout net JSON_stringify c w))) =
        Some (EvConsoleError "Logout API error:" (LogThrown error))
  end.
Proof.
  rewrite logout_storage.
  split_and!.
  - apply logout_returns.
  - rewrite lookup_delete_ne by done. apply lookup_delete_eq.
  - apply lookup_delete_eq.
  - rewrite logout_unfold.
    pose proof (request_result net c "/auth/logout" post (signed_out w)) as Hr.
    change (fetched (signed_out w)) with (fetched w) in Hr. rewrite <- Hr.
    destruct (request net c "/auth/logout" post (signed_out w)) as [[?|?] ?]; simpl; [done|].
    split; [done | apply last_snoc].
Qed.

(** C8, amended.  When the profile call succeeds, [getProfile] returns
    the profile; a truthy profile is stored, serialized, and a falsy one
    ([null], [false], [0], the empty string) empties the slot instead.
    When the call fails, [logout] is run on the world the failure left
    and the same failure is thrown again, so that [isAuthenticated]
    answers [false] afterwards. *)
Theorem getProfile_outcome c w :
  match settled (net (fetched w)) with
  | Return d =>
      fst (getProfile net JSON_stringify c w) = Return d ∧
      storage (snd (getProfile net JSON_stringify c w)) !! user_key =
        (if truthy d then Some (JSON_stringify d) else None)
  | Throw error =>
      fst (getProfile net JSON_stringify c w) = Throw error ∧
      snd (getProfile net JSON_stringify c w) =
        snd (logout net JSON_stringify c (snd (request net c "/auth/profile" no_options w))) ∧
      fst (isAuthenticated (snd (getProfile net JSON_stringify c w))) = Return false
  end.
Proof.
  pose proof (request_result net c "/auth/profile" no_options w) as Hr.
  rewrite <- Hr, getProfile_unfold.
  destruct (request net c "/auth/profile" no_options w) as [[d|e] w1]; simpl.
  - split; [done|]. unfold setUserData.
    destruct (truthy d); simpl; [apply lookup_insert_eq | apply lookup_delete_eq].
  - split_and!; try done.
    unfold isAuthenticated, bind, getAuthToken, localStorage_getItem, ret. simpl.
    rewrite logout_storage, lookup_delete_ne, lookup_delete_eq by done. done.
Qed.

Lemma logout_fetches c w :
  fetches (trace (snd (logout net JSON_stringify c w))) =
    (fetches (trace w) ++
     [EvFetch (baseURL c +:+ "/auth/logout") "POST"
        {[ "Content-Type" := "application/json" ]} None])%list.
Proof.
  rewrite logout_unfold.
  pose proof (request_fetches net c "/auth/logout" post (signed_out w)) as Hf.
  simpl in Hf. rewrite !lookup_delete_ne, lookup_delete_eq in Hf by done.
  destruct (request net c "/auth/logout" post (signed_out w)) as [[?|?] ?];
    simpl in *; [by apply Hf|].
  unfold fetches in *. rewrite omap_app. simpl. rewrite app_nil_r. by apply Hf.
Qed.

Lemma auth_callback_elsewhere c loc w :
  includes (pathname loc) "/auth/callback" = false →
  auth_callback net JSON_stringify c loc w = (Return tt, w).
Proof. intros Hpath. unfold auth_callback. by rewrite Hpath. Qed.

Lemma getProfile_notifications c w :
  notifications (trace (snd (getProfile net JSON_stringify c w))) = notifications (trace w).
Proof.
  rewrite getProfile_unfold.
  pose proof (request_notifications net c "/auth/profile" no_options w) as Hn.
  destruct (request net c "/auth/profile" no_options w) as [[d|e] w1]; simpl in *.
  - unfold setUserData. by destruct (truthy d).
  - by rewrite logout_notifications.
Qed.

Lemma getProfile_fetches c w :
  ∃ rest,
    fetches (trace (snd (getProfile net JSON_stringify c w))) =
      (fetches (trace w) ++
       EvFetch (baseURL c +:+ "/auth/profile") "GET"
         (with_bearer (storage w !! token_key) {[ "Content-Type" := "application/json" ]})
         None :: rest)%list.
Proof.
  rewrite getProfile_unfold.
  pose proof (request_fetches net c "/auth/profile" no_options w) as Hf.
  simpl in Hf.
  destruct (request net c "/auth/profile" no_options w) as [[d|e] w1]; simpl in *.
  - exists []. rewrite <- Hf by done. unfold setUserData. by destruct (truthy d).
  - eexists. rewrite logout_fetches, Hf by done. by rewrite <- app_assoc.
Qed.

(** ** Episodes *)

(** C9. [getRecent(n)] issues one call of [fetch], a GET of the base
    origin followed by [/episodes/recent?limit=] and the text a template
    literal makes of [n]; from the origin [https://x/api], [getRecent(6)]
    gets [https://x/api/episodes/recent?limit=6]; and 6 is the limit when
    none is given. *)
Theorem getRecent_request {Value : Type} (Value_toString : Value → string + DOMError)
    c (n six : Value) (text : string) w :
  Value_toString n = inl text →
  Value_toString six = inl "6" →
  fetches (trace (snd (getRecent net Value_toString c (Some n) w))) =
    (fetches (trace w) ++
     [EvFetch (baseURL c +:+ "/episodes/recent?limit=" +:+ text) "GET"
        (with_bearer (storage w !! token_key) {[ "Content-Type" := "application/json" ]})
        None])%list ∧
  fetches (trace (snd (getRecent net Value_toString (at_origin "https://x/api") (Some six)
                         w))) =
    (fetches (trace w) ++
     [EvFetch "https://x/api/episodes/recent?limit=6" "GET"
        (with_bearer (storage w !! token_key) {[ "Content-Type" := "application/json" ]})
        None])%list ∧
  getRecent net Value_toString c None w = getRecent net Value_toString c (Some six) w.
Proof.
  intros Hn Hsix. unfold getRecent, bind. rewrite Hn, Hsix. simpl.
  split_and!; [| |done].
  - by rewrite request_fetches.
  - by rewrite request_fetches.
Qed.

(** ** The OAuth callback *)

(** C10, amended.  On a callback path, a non-empty token parameter is
    stored and the profile is fetched with it, and the page goes to the
    root once the profile is there; no toast is shown.  With no token
    parameter, or an empty one, and a non-empty error parameter, nothing
    is stored or fetched: the toast is shown and the way to the root is
    scheduled 3000 ms ahead.  Otherwise nothing happens. *)
Theorem auth_callback_branches c loc w :
  includes (pathname loc) "/auth/callback" = true →
  if truthy_str (params_get (search loc) "token")
  then
    ∃ t,
      params_get (search loc) "token" = Some t ∧
      auth_callback net JSON_stringify c loc w =
        match getProfile net JSON_stringify c (set_storage (insert token_key t) w) with
        | (Return _, w2) => (Return tt, log_event (EvNavigate "/") w2)
        | (Throw reason, w2) => (Return tt, log_event (EvUnhandledRejection reason) w2)
        end ∧
      (∃ rest,
         fetches (trace (snd (auth_callback net JSON_stringify c loc w))) =
           (fetches (trace w) ++
            EvFetch (baseURL c +:+ "/auth/profile") "GET"
              (<["Authorization" := "Bearer " +:+ t]>
                 {[ "Content-Type" := "application/json" ]})
              None :: rest)%list) ∧
      notifications (trace (snd (auth_callback net JSON_stringify c loc w))) =
        notifications (trace w)
  else if truthy_str (params_get (search loc) "error")
  then
    ∃ e,
      params_get (search loc) "error" = Some e ∧
      fst (auth_callback net JSON_stringify c loc w) = Return tt ∧
      storage (snd (auth_callback net JSON_stringify c loc w)) = storage w ∧
      fetched (snd (auth_callback net JSON_stringify c loc w)) = fetched w ∧
      trace (snd (auth_callback net JSON_stringify c loc w)) =
        (trace w ++
         [EvConsoleError "Auth error:" (LogText e);
          EvNotification "Authentication failed. Please try again." "error";
          EvSetTimeout (next_timer w) 5000 DismissNotification;
          EvSetTimeout (S (next_timer w)) 3000 (GoTo "/")])%list ∧
      timers (snd (auth_callback net JSON_stringify c loc w)) !! S (next_timer w) =
        Some (3000, GoTo "/")
  else auth_callback net JSON_stringify c loc w = (Return tt, w).
Proof.
  intros Hpath.
  destruct (truthy_str (params_get (search loc) "token")) eqn:Htok.
  - destruct (params_get (search loc) "token") as [t|] eqn:Hget; [|done]. simpl in Htok.
    exists t. split; [done|].
    assert (auth_callback net JSON_stringify c loc w =
              match getProfile net JSON_stringify c (set_storage (insert token_key t) w) with
              | (Return _, w2) => (Return tt, log_event (EvNavigate "/") w2)
              | (Throw reason, w2) => (Return tt, log_event (EvUnhandledRejection reason) w2)
              end) as Hrun.
    { unfold auth_callback. rewrite Hpath, Hget. simpl. rewrite Htok.
      unfold bind, try_catch, navigate, emit. simpl.
      by destruct (getProfile net JSON_stringify c (set_storage (insert token_key t) w))
        as [[d|e] w2]. }
    rewrite Hrun. split; [done|].
    pose proof (getProfile_fetches c (set_storage (insert token_key t) w)) as [rest Hf].
    pose proof (getProfile_notifications c (set_storage (insert token_key t) w)) as Hn.
    simpl in Hf. rewrite lookup_insert_eq in Hf. simpl in Hf. rewrite Htok in Hf.
    destruct (getProfile net JSON_stringify c (set_storage (insert token_key t) w))
      as [[d|e] w2]; simpl in *.
    all: split;
      [ exists rest; unfold fetches in *; rewrite omap_app; simpl; by rewrite app_nil_r
      | unfold notifications in *; rewrite omap_app; simpl; by rewrite app_nil_r ].
  - unfold auth_callback. rewrite Hpath, Htok.
    destruct (truthy_str (params_get (search loc) "error")) eqn:Herr; [|done].
    destruct (params_get (search loc) "error") as [e|]; [|done].
    exists e. simpl. split_and!; try done.
    + by rewrite <- !app_assoc.
    + apply lookup_insert_eq.
Qed.

End Session.

(** ** Scenarios *)


(** The server answers 401: one call, and the caller gets the error. *)
Lemma requestWithRetry_client_error_witness :
  fst (requestWithRetry (always (FetchResolves 401 (BodyJson empty_object))) new_RawfinAPI
         "/auth/profile" no_options 1 initial_world)
    = Throw (APIError "API Error: 401" 401 empty_object) ∧
  fetched (snd (requestWithRetry (always (FetchResolves 401 (BodyJson empty_object)))
                  new_RawfinAPI "/auth/profile" no_options 1 initial_world)) = 1%nat.
Proof.
  destruct (requestWithRetry_client_error (always (FetchResolves 401 (BodyJson empty_object)))
              new_RawfinAPI "/auth/profile" no_options
              initial_world "API Error: 401" 401 empty_object) as (_ & Hres & Hcalls).
  - vm_compute. reflexivity.
  - right. lia.
  - split; [exact Hres | exact Hcalls].
Defined.

(** The connection is refused: the [TypeError] of the transport comes
    back as it is, after one call, and the timer of the call is gone. *)
Lemma request_transport_failure_witness :
  fst (request (always (FetchRejects connection_refused)) new_RawfinAPI "/search?q=fin"
         no_options initial_world)
    = Throw (Native connection_refused) ∧
  timers (snd (request (always (FetchRejects connection_refused)) new_RawfinAPI
                 "/search?q=fin" no_options initial_world)) !! 0%nat = None ∧
  fetched (snd (requestWithRetry (always (FetchRejects connection_refused)) new_RawfinAPI
                  "/search?q=fin" no_options 1 initial_world)) = 1%nat.
Proof.
  destruct (request_transport_failure (always (FetchRejects connection_refused))
              new_RawfinAPI "/search?q=fin" no_options
              initial_world connection_refused) as (Hres & Htimer & _ & Hcalls).
  - reflexivity.
  - simpl. discriminate.
  - split_and!; [exact Hres | exact Htimer | exact Hcalls].
Defined.

(** The timer goes off and the transport reports the cancellation. *)
Lemma request_timeout_witness :
  fst (request (always (FetchRejects cancelled)) new_RawfinAPI "/episodes/featured"
         no_options initial_world)
    = Throw (APIError "Request timeout" 408 empty_object).
Proof.
  apply (request_timeout (always (FetchRejects cancelled)) new_RawfinAPI
           "/episodes/featured" no_options initial_world cancelled); reflexivity.
Defined.

(** The page loads at [/auth/callback?token=abc] and the profile call
    succeeds: the profile is fetched with the token, and no toast is
    shown. *)
Lemma auth_callback_branches_witness :
  (∃ rest,
     fetches (trace (snd (auth_callback ok_net
                            scenario_stringify new_RawfinAPI callback_with_token
                            initial_world))) =
       EvFetch "https://rawfin.tv/api/auth/profile" "GET"
         (<["Authorization" := "Bearer abc"]> {[ "Content-Type" := "application/json" ]})
         None :: rest) ∧
  notifications (trace (snd (auth_callback ok_net
                               scenario_stringify new_RawfinAPI callback_with_token
                               initial_world))) = [].
Proof.
  pose proof (auth_callback_branches ok_net
                scenario_stringify new_RawfinAPI callback_with_token initial_world
                eq_refl) as Hb.
  simpl in Hb. destruct Hb as (t & [= <-] & _ & Hfetch & Hnote).
  split; [exact Hfetch | exact Hnote].
Defined.

(** C5, at the failing input: a caller that passes an Accept header and
    no Content-Type gets a request without Content-Type. *)
Theorem request_drops_content_type :
  fetches (trace (snd (request ok_net new_RawfinAPI "/contact"
                         {| opt_method := Some "POST";
                            opt_headers := Some 0%nat;
                            opt_body := Some "{}" |}
                         (world_with_headers {[ "Accept" := "application/json" ]}))))
  = [EvFetch "https://rawfin.tv/api/contact" "POST"
       {[ "Accept" := "application/json" ]} (Some "{}")]
  ∧ ({[ "Accept" := "application/json" ]} : gmap string string) !! "Content-Type" = None.
Proof. split; vm_compute; reflexivity. Qed.

(** C6, as stated, fails: nothing is stored, the caller passes an
    Authorization header of its own, and it is sent. *)
Lemma request_authorization_from_caller :
  ¬ authorization_only_with_token ok_net new_RawfinAPI "/episodes/featured"
      with_own_headers
      (world_with_headers {[ "Authorization" := "Basic cmF3ZmluOnR2" ]}).
Proof.
  intros Hclaim.
  specialize (Hclaim eq_refl "https://rawfin.tv/api/episodes/featured" "GET"
                {[ "Authorization" := "Basic cmF3ZmluOnR2" ]} None).
  assert (({[ "Authorization" := "Basic cmF3ZmluOnR2" ]} : gmap string string)
            !! "Authorization" = None) as Habs; [|by vm_compute in Habs].
  apply Hclaim. vm_compute. apply list_elem_of_here.
Qed.

(** The options object is used for a request while signed in, then
    again after [logout]: the header written into its headers the first
    time goes out the second time, with no token in the store. *)
Example authorization_outlives_logout :
  storage signed_out_again !! token_key = None ∧
  last (fetches (trace (snd (request ok_net new_RawfinAPI "/episodes/featured"
                              with_own_headers signed_out_again))))
  = Some (EvFetch "https://rawfin.tv/api/episodes/featured" "GET"
            (<["Authorization" := "Bearer abc"]> {[ "Accept" := "application/json" ]})
            None).
Proof. split; vm_compute; reflexivity. Qed.

(** C8, as stated, fails: the backend answers the profile call with
    [null]; [getProfile] succeeds and nothing is stored. *)
Lemma getProfile_null_not_stored :
  ¬ stores_fetched_profile (always (FetchResolves 200 (BodyJson JNull)))
      scenario_stringify new_RawfinAPI initial_world.
Proof.
  intros Hclaim. specialize (Hclaim JNull).
  assert (fst (getProfile (always (FetchResolves 200 (BodyJson JNull))) scenario_stringify
                 new_RawfinAPI initial_world) = Return JNull) as Hok
    by (vm_compute; reflexivity).
  specialize (Hclaim Hok). vm_compute in Hclaim. discriminate.
Qed.

(** C10, as stated, fails: the callback URL carries an empty token
    parameter next to an error; no profile is fetched. *)
Lemma auth_callback_empty_token :
  ¬ token_parameter_starts_session ok_net scenario_stringify new_RawfinAPI
      {| pathname := "/auth/callback";
         search := [("token", EmptyString); ("error", "access_denied")] |}
      initial_world.
Proof.
  intros Hclaim. specialize (Hclaim eq_refl EmptyString eq_refl).
  vm_compute in Hclaim. lia.
Qed.

(** ** More on the request primitive *)

Section RequestOutcomes.

Variable net : nat → FetchOutcome.

(** X1. An answer whose status is outside 200..299 makes [request] fail
    with [APIError("API Error: <status>", status, data)], where [data]
    is the parsed body, or [{}] when the body does not parse. *)
Theorem request_http_error c ep o w s b :
  net (fetched w) = FetchResolves s b →
  s < 200 ∨ 299 < s →
  fst (request net c ep o w) =
    Throw (APIError ("API Error: " +:+ pretty s) s
             match b with
             | BodyJson d => d
             | BodyRejects _ => empty_object
             end).
Proof.
  intros Hnet Hs. rewrite request_result, Hnet. simpl.
  assert ((200 <=? s) && (s <=? 299) = false) as -> by lia. done.
Qed.

(** X2. A 2xx answer whose body does not parse makes [request] throw the
    error of the parser itself, not an [APIError], and [requestWithRetry]
    does not try again. *)
Theorem request_unparsable_success c ep o w s e :
  net (fetched w) = FetchResolves s (BodyRejects e) →
  200 ≤ s ≤ 299 →
  err_name e ≠ "AbortError" →
  fst (request net c ep o w) = Throw (Native e) ∧
  requestWithRetry net c ep o 1 w = request net c ep o w.
Proof.
  intros Hnet Hs Hname. split.
  - rewrite request_result, Hnet. simpl.
    assert ((200 <=? s) && (s <=? 299) = true) as -> by lia.
    apply String.eqb_neq in Hname. by rewrite Hname.
  - apply requestWithRetry_gives_up. right. rewrite Hnet. simpl. lia.
Qed.

(** X3. Whatever the answer, [request] calls [fetch] once, writes
    nothing to [localStorage] and leaves the timer it armed disarmed. *)
Theorem request_footprint c ep o w :
  fetched (snd (request net c ep o w)) = S (fetched w) ∧
  storage (snd (request net c ep o w)) = storage w ∧
  next_timer (snd (request net c ep o w)) = S (next_timer w) ∧
  timers (snd (request net c ep o w)) = delete (next_timer w) (timers w).
Proof.
  by rewrite request_fetched, request_storage, request_next_timer, request_timers.
Qed.

(** X4. [request] writes one error to the console, the failure it
    throws, for every failure but a cancellation; a success and a
    timeout write none. *)
Theorem request_logging c ep o w :
  console_errors (trace (snd (request net c ep o w))) =
    (console_errors (trace w) ++
     match fst (request net c ep o w) with
     | Return _ => []
     | Throw error =>
         if is_timeout error then []
         else [("API Request Failed:", LogThrown error)]
     end)%list.
Proof.
  exec. cases; unfold console_errors; rewrite !omap_app; simpl; rewrite ?app_nil_r; done.
Qed.

(** X5. The one call of [fetch] goes to the base origin followed by the
    endpoint, with the method of the options, [GET] when there is none,
    and their body; its headers are the object the caller passed, or a
    new object holding the JSON content type when the caller passed
    none, with the bearer token written into it when one is stored. *)
Theorem request_outgoing c ep o w :
  (∀ l, opt_headers o = Some l → is_Some (heap w !! l)) →
  fetches (trace (snd (request net c ep o w))) =
    (fetches (trace w) ++
     [EvFetch (baseURL c +:+ ep)
        (default "GET" (opt_method o))
        (with_bearer (storage w !! token_key)
           match opt_headers o with
           | Some l => deref w l
           | None => {[ "Content-Type" := "application/json" ]}
           end)
        (opt_body o)])%list.
Proof.
  intros Hwf. rewrite request_fetches by done. by destruct (opt_method o).
Qed.

(** X6. The headers object of the caller is written to: after a call
    made while a token is stored, it holds the Authorization header. *)
Theorem request_mutates_caller_headers c ep o w l t :
  opt_headers o = Some l →
  is_Some (heap w !! l) →
  storage w !! token_key = Some t →
  nonempty t = true →
  deref (snd (request net c ep o w)) l = <["Authorization" := "Bearer " +:+ t]> (deref w l).
Proof. apply request_writes_caller_headers. Qed.

End RequestOutcomes.

(** ** More on the retry loop *)

Section RetryRuns.

Variable net : nat → FetchOutcome.

Lemma backed_off_storage c a w : storage (backed_off c a w) = storage w.
Proof. done. Qed.

Lemma backed_off_timers c a w :
  timers (backed_off c a w) = delete (next_timer w) (timers w).
Proof. unfold backed_off. simpl. apply delete_insert_eq. Qed.

Lemma retry_run_from c ep o n : ∀ a w,
  (retryAttempts c - a)%nat = n →
  ∃ k,
    (k ≤ n)%nat ∧
    fetched (snd (requestWithRetry net c ep o a w)) = (fetched w + S k)%nat ∧
    delays (trace (snd (requestWithRetry net c ep o a w))) =
      (delays (trace w) ++ map (λ N, retryDelay c * Z.of_nat N) (seq a k))%list ∧
    fst (requestWithRetry net c ep o a w) = settled (net (fetched w + k)).
Proof.
  induction n as [|n IH]; intros a w Hn.
  - exists 0%nat. rewrite requestWithRetry_gives_up by (left; lia).
    rewrite request_fetched, request_delays, request_result, Nat.add_0_r. simpl.
    rewrite app_nil_r. split_and!; (done || lia).
  - destruct (retryable (net (fetched w))) eqn:Hr.
    + rewrite requestWithRetry_retries by (done || lia).
      set (w2 := backed_off c a (snd (request net c ep o w))).
      destruct (IH (a + 1)%nat w2) as (k & Hk & Hf & Hd & Hres); [lia|].
      assert (fetched w2 = S (fetched w)) as Hf2.
      { unfold w2. by rewrite backed_off_fetched, request_fetched. }
      exists (S k). rewrite Hf, Hd, Hres, Hf2.
      unfold w2. rewrite backed_off_delays, request_delays, <- app_assoc. simpl.
      rewrite Nat.add_1_r.
      replace (S (fetched w) + k)%nat with (fetched w + S k)%nat by lia.
      replace (S (fetched w + k))%nat with (fetched w + S k)%nat by lia.
      split_and!; (done || lia).
    + exists 0%nat. rewrite requestWithRetry_gives_up by (by right).
      rewrite request_fetched, request_delays, request_result, Nat.add_0_r. simpl.
      rewrite app_nil_r. split_and!; (done || lia).
Qed.


Lemma retry_footprint_from c ep o n : ∀ a w,
  (retryAttempts c - a)%nat = n →
  storage (snd (requestWithRetry net c ep o a w)) = storage w ∧
  timers (snd (requestWithRetry net c ep o a w)) ⊆ timers w.
Proof.
  induction n as [|n IH]; intros a w Hn.
  - rewrite requestWithRetry_gives_up by (left; lia).
    rewrite request_storage, request_timers. split; [done | apply delete_subseteq].
  - destruct (retryable (net (fetched w))) eqn:Hr.
    + rewrite requestWithRetry_retries by (done || lia).
      destruct (IH (a + 1)%nat (backed_off c a (snd (request net c ep o w)))) as [Hs Ht];
        [lia|].
      rewrite Hs, backed_off_storage, request_storage. split; [done|].
      etrans; [exact Ht|]. rewrite backed_off_timers, request_timers.
      etrans; apply delete_subseteq.
    + rewrite requestWithRetry_gives_up by (by right).
      rewrite request_storage, request_timers. split; [done | apply delete_subseteq].
Qed.

(** X8. Through all its attempts [requestWithRetry] writes nothing to
    [localStorage], and every timer it arms, for a timeout or for a
    backoff delay, is disarmed when it is done. *)
Theorem requestWithRetry_footprint c ep o a w :
  storage (snd (requestWithRetry net c ep o a w)) = storage w ∧
  timers (snd (requestWithRetry net c ep o a w)) ⊆ timers w.
Proof. by apply (retry_footprint_from c ep o (retryAttempts c - a)). Qed.

End RetryRuns.

(** ** More on the auth session *)

Section SessionOutcomes.

Variable net : nat → FetchOutcome.
Variable JSON_stringify : Json → string.
Variable JSON_parse : string → Json + DOMError.
Variable String_of : Json → string + DOMError.

Lemma request_navigations c ep o w :
  navigations (trace (snd (request net c ep o w))) = navigations (trace w).
Proof.
  exec. cases; unfold navigations; rewrite !omap_app; simpl; rewrite ?app_nil_r; done.
Qed.

Lemma logout_navigations c w :
  navigations (trace (snd (logout net JSON_stringify c w))) = navigations (trace w).
Proof.
  rewrite logout_unfold.
  pose proof (request_navigations c "/auth/logout" post (signed_out w)) as Hs.
  destruct (request net c "/auth/logout" post (signed_out w)) as [[?|?] ?]; simpl in *; [done|].
  unfold navigations in *. rewrite omap_app. simpl. by rewrite app_nil_r.
Qed.

Lemma logout_fetched c w :
  fetched (snd (logout net JSON_stringify c w)) = S (fetched w).
Proof.
  rewrite logout_unfold.
  pose proof (request_fetched net c "/auth/logout" post (signed_out w)) as Hs.
  by destruct (request net c "/auth/logout" post (signed_out w)) as [[?|?] ?].
Qed.

(** [refreshToken] stores the token of the answer, or runs [logout] on
    a failure: that of the call, that of reading the answer or that of
    turning the token into a string. *)
Lemma refreshToken_unfold c w :
  refreshToken net JSON_stringify String_of c w =
    match request net c "/auth/refresh" post w with
    | (Return data, w1) =>
        match data with
        | JNull =>
            (Throw (Native null_has_no_properties), snd (logout net JSON_stringify c w1))
        | _ =>
            match setAuthToken_any String_of (token_of data) w1 with
            | (Return _, w2) => (Return data, w2)
            | (Throw error, w2) => (Throw error, snd (logout net JSON_stringify c w2))
            end
        end
    | (Throw error, w1) => (Throw error, snd (logout net JSON_stringify c w1))
    end.
Proof.
  assert (∀ (error : Thrown) w1,
            (let (r, w') := logout net JSON_stringify c w1 in
             match r with
             | Return _ => throw error w'
             | Throw e0 => (Throw e0, w')
             end) = (Throw error : Result Json, snd (logout net JSON_stringify c w1)))
    as Hcatch.
  { intros error w1. destruct (logout_returns net JSON_stringify c w1) as [v Hv].
    by destruct (logout net JSON_stringify c w1) as [[?|?] w2]; simplify_eq/=. }
  unfold refreshToken, try_catch, bind.
  destruct (request net c "/auth/refresh" post w) as [[data|e] w1]; simpl; [|apply Hcatch].
  destruct data as [|b|z|text|items|fields]; simpl; try done; try apply Hcatch.
  unfold setAuthToken_any, localStorage_setItem, localStorage_removeItem, throw.
  destruct (get_field fields "token") as [j|]; [|done].
  destruct j as [|b|z|t|items|fs]; simpl.
  all: repeat
         first
           [ done
           | apply Hcatch
           | match goal with
             | |- context [match String_of ?x with _ => _ end] =>
                 destruct (String_of x); simpl
             | |- context [if ?b then _ else _] => destruct b; simpl
             end ].
Qed.

(** X9. What [setAuthToken] stores is read back: a non-empty token is
    returned by [getAuthToken] and makes [isAuthenticated] true; [null]
    or the empty string empties the slot and makes it false; the stored
    profile is not touched. *)
Theorem setAuthToken_read_back token w :
  fst (getAuthToken (snd (setAuthToken token w))) =
    Return (if truthy_str token then token else None) ∧
  fst (isAuthenticated (snd (setAuthToken token w))) = Return (truthy_str token) ∧
  storage (snd (setAuthToken token w)) !! user_key = storage w !! user_key.
Proof.
  unfold isAuthenticated, bind, getAuthToken, localStorage_getItem, ret.
  destruct token as [t|]; simpl; [destruct (nonempty t) eqn:Ht|]; simpl.
  - rewrite lookup_insert_eq, lookup_insert_ne by done. simpl. by rewrite Ht.
  - by rewrite lookup_delete_eq, lookup_delete_ne.
  - by rewrite lookup_delete_eq, lookup_delete_ne.
Qed.

(** X10. The call [logout] sends to the backend never carries the token:
    the token is removed before the request is built, so its headers are
    the JSON content type alone. *)
Theorem logout_sends_no_token c w :
  fetches (trace (snd (logout net JSON_stringify c w))) =
    (fetches (trace w) ++
     [EvFetch (baseURL c +:+ "/auth/logout") "POST"
        {[ "Content-Type" := "application/json" ]} None])%list ∧
  ({[ "Content-Type" := "application/json" ]} : gmap string string) !! "Authorization" = None.
Proof. split; [apply logout_fetches | done]. Qed.

(** X11. When the refresh call fails, [refreshToken] throws that failure
    again after [logout] has run: token and profile are gone and the
    logout call was sent. *)
Theorem refreshToken_failure c w error :
  settled (net (fetched w)) = Throw error →
  fst (refreshToken net JSON_stringify String_of c w) = Throw error ∧
  storage (snd (refreshToken net JSON_stringify String_of c w)) !! token_key = None ∧
  storage (snd (refreshToken net JSON_stringify String_of c w)) !! user_key = None ∧
  fetched (snd (refreshToken net JSON_stringify String_of c w)) = S (S (fetched w)).
Proof.
  intros Hfail. rewrite <- request_result with (c := c) (ep := "/auth/refresh") (o := post)
    in Hfail.
  rewrite refreshToken_unfold.
  pose proof (request_fetched net c "/auth/refresh" post w) as Hf.
  destruct (request net c "/auth/refresh" post w) as [[data|e] w1]; simpl in *; [done|].
  injection Hfail as ->. rewrite logout_storage, logout_fetched, Hf.
  rewrite lookup_delete_ne, !lookup_delete_eq by done. done.
Qed.

(** X12. When the answer is an object whose [token] is a non-empty
    string, [refreshToken] stores that token and returns the answer; the
    stored profile is kept and nothing else is sent. *)
Theorem refreshToken_stores_token c w fields t :
  settled (net (fetched w)) = Return (JObj fields) →
  get_field fields "token" = Some (JStr t) →
  nonempty t = true →
  fst (refreshToken net JSON_stringify String_of c w) = Return (JObj fields) ∧
  storage (snd (refreshToken net JSON_stringify String_of c w)) !! token_key = Some t ∧
  storage (snd (refreshToken net JSON_stringify String_of c w)) !! user_key
    = storage w !! user_key ∧
  fetched (snd (refreshToken net JSON_stringify String_of c w)) = S (fetched w).
Proof.
  intros Hok Htok Ht. rewrite <- request_result with (c := c) (ep := "/auth/refresh") (o := post)
    in Hok.
  rewrite refreshToken_unfold.
  pose proof (request_fetched net c "/auth/refresh" post w) as Hf.
  pose proof (request_storage net c "/auth/refresh" post w) as Hs.
  destruct (request net c "/auth/refresh" post w) as [[data|e] w1]; simpl in *; [|done].
  injection Hok as ->. simpl. rewrite Htok. simpl. rewrite Ht. simpl.
  rewrite lookup_insert_eq, lookup_insert_ne, Hs by done. done.
Qed.

(** X13. When the answer is not [null] and has no truthy [token],
    [refreshToken] succeeds all the same and removes the stored token:
    [isAuthenticated] is false afterwards, while the stored profile
    stays and no logout call is sent. *)
Theorem refreshToken_without_token c w data :
  settled (net (fetched w)) = Return data →
  data ≠ JNull →
  from_option truthy false (token_of data) = false →
  fst (refreshToken net JSON_stringify String_of c w) = Return data ∧
  fst (isAuthenticated (snd (refreshToken net JSON_stringify String_of c w))) = Return false ∧
  storage (snd (refreshToken net JSON_stringify String_of c w)) !! user_key = storage w !! user_key ∧
  fetched (snd (refreshToken net JSON_stringify String_of c w)) = S (fetched w).
Proof.
  intros Hok Hnull Htok.
  rewrite <- request_result with (c := c) (ep := "/auth/refresh") (o := post) in Hok.
  rewrite refreshToken_unfold.
  pose proof (request_fetched net c "/auth/refresh" post w) as Hf.
  pose proof (request_storage net c "/auth/refresh" post w) as Hs.
  destruct (request net c "/auth/refresh" post w) as [[d|e] w1]; simpl in *; [|done].
  injection Hok as ->.
  assert (setAuthToken_any String_of (token_of data) w1 =
            (Return tt, set_storage (delete token_key) w1)) as Hrm.
  { unfold setAuthToken_any. destruct (token_of data) as [j|]; simpl in *; [|done].
    destruct j; simpl in *; by rewrite ?Htok. }
  unfold isAuthenticated, bind, getAuthToken, localStorage_getItem, ret.
  destruct data; try done; rewrite Hrm; simpl;
    rewrite lookup_delete_eq, lookup_delete_ne, Hs by done; done.
Qed.

(** X14. When the answer is [null], reading its token throws a
    [TypeError]; [refreshToken] throws it after [logout] has run, though
    the call itself succeeded. *)
Theorem refreshToken_null_answer c w :
  settled (net (fetched w)) = Return JNull →
  fst (refreshToken net JSON_stringify String_of c w) = Throw (Native null_has_no_properties) ∧
  storage (snd (refreshToken net JSON_stringify String_of c w)) !! token_key = None ∧
  storage (snd (refreshToken net JSON_stringify String_of c w)) !! user_key = None ∧
  fetched (snd (refreshToken net JSON_stringify String_of c w)) = S (S (fetched w)).
Proof.
  intros Hok. rewrite <- request_result with (c := c) (ep := "/auth/refresh") (o := post)
    in Hok.
  rewrite refreshToken_unfold.
  pose proof (request_fetched net c "/auth/refresh" post w) as Hf.
  destruct (request net c "/auth/refresh" post w) as [[data|e] w1]; simpl in *; [|done].
  injection Hok as ->. simpl. rewrite logout_storage, logout_fetched, Hf.
  rewrite lookup_delete_ne, !lookup_delete_eq by done. done.
Qed.

(** X15. After [logout], [getCurrentUser] returns [null], whatever was
    stored before and whatever the backend answered. *)
Theorem getCurrentUser_after_logout c w :
  fst (getCurrentUser JSON_parse (snd (logout net JSON_stringify c w))) = Return JNull.
Proof.
  unfold getCurrentUser, getUserData, bind, localStorage_getItem.
  by rewrite logout_storage, lookup_delete_eq.
Qed.

(** X16. A truthy profile that [setUserData] stores is what
    [getUserData] returns, provided [JSON.parse] reads back what
    [JSON.stringify] wrote for it. *)
Theorem getUserData_read_back d w :
  truthy d = true →
  nonempty (JSON_stringify d) = true →
  JSON_parse (JSON_stringify d) = inl d →
  fst (getUserData JSON_parse (snd (setUserData JSON_stringify (Some d) w))) = Return d.
Proof.
  intros Ht Hne Hparse.
  unfold getUserData, setUserData, bind, localStorage_getItem. rewrite Ht. simpl.
  rewrite lookup_insert_eq, Hne, Hparse. done.
Qed.

Lemma getProfile_navigations c w :
  navigations (trace (snd (getProfile net JSON_stringify c w))) = navigations (trace w).
Proof.
  rewrite getProfile_unfold.
  pose proof (request_navigations c "/auth/profile" no_options w) as Hn.
  destruct (request net c "/auth/profile" no_options w) as [[d|e] w1]; simpl in *.
  - unfold setUserData. by destruct (truthy d).
  - by rewrite logout_navigations.
Qed.

(** X17. On a callback path with a non-empty token, when the profile
    call fails the page is not sent anywhere: the token that was just
    stored is removed again by [logout], and the failure is left as an
    unhandled rejection. *)
Theorem auth_callback_profile_failure c loc w t error :
  includes (pathname loc) "/auth/callback" = true →
  params_get (search loc) "token" = Some t →
  nonempty t = true →
  settled (net (fetched w)) = Throw error →
  fst (auth_callback net JSON_stringify c loc w) = Return tt ∧
  navigations (trace (snd (auth_callback net JSON_stringify c loc w))) = navigations (trace w) ∧
  fst (isAuthenticated (snd (auth_callback net JSON_stringify c loc w))) = Return false ∧
  EvUnhandledRejection error ∈ trace (snd (auth_callback net JSON_stringify c loc w)).
Proof.
  intros Hpath Hget Ht Hfail.
  set (w1 := set_storage (insert token_key t) w).
  assert (auth_callback net JSON_stringify c loc w =
            match getProfile net JSON_stringify c w1 with
            | (Return _, w2) => (Return tt, log_event (EvNavigate "/") w2)
            | (Throw reason, w2) => (Return tt, log_event (EvUnhandledRejection reason) w2)
            end) as ->.
  { unfold auth_callback. rewrite Hpath, Hget. simpl. rewrite Ht.
    unfold bind, try_catch, navigate, emit. simpl. fold w1.
    by destruct (getProfile net JSON_stringify c w1) as [[d|e] w2]. }
  pose proof (getProfile_navigations c w1) as Hnav.
  rewrite getProfile_unfold in *.
  change (fetched w) with (fetched w1) in Hfail.
  rewrite <- request_result with (c := c) (ep := "/auth/profile") (o := no_options) in Hfail.
  destruct (request net c "/auth/profile" no_options w1) as [[d|e] w2]; simpl in *; [done|].
  injection Hfail as ->.
  split_and!; [done | | | apply elem_of_app; right; apply list_elem_of_here].
  - unfold navigations in *. rewrite omap_app. simpl. by rewrite app_nil_r.
  - unfold isAuthenticated, bind, getAuthToken, localStorage_getItem, ret. simpl.
    by rewrite logout_storage, lookup_delete_ne, lookup_delete_eq.
Qed.

End SessionOutcomes.

(** ** Sub-clients *)

Section SubClients.

Variable net : nat → FetchOutcome.
Variable JSON_stringify : Json → string.

Lemma list_ascii_of_string_app s1 s2 :
  String.list_ascii_of_string (s1 +:+ s2) =
    (String.list_ascii_of_string s1 ++ String.list_ascii_of_string s2)%list.
Proof. induction s1 as [|c s1 IH]; simpl; [done | by rewrite IH]. Qed.

Lemma append_cancel_l (p s1 s2 : string) : p +:+ s1 = p +:+ s2 → s1 = s2.
Proof. induction p as [|c p IH]; simpl; [done|]. intros [= H]. by apply IH. Qed.

Lemma forallb_Forall {T} (p : T → bool) (l : list T) :
  forallb p l = true → Forall (λ x, p x = true) l.
Proof.
  induction l as [|x l IH]; simpl; [constructor|].
  intros [Hx Hl]%andb_true_iff. constructor; auto.
Qed.

(** What [encodeURIComponent] writes for one byte is made of letters,
    digits and [- _ . ! ~ * ' ( ) %]. *)
Lemma encodeURIComponent_byte_plain c :
  forallb (λ ch, is_alnum ch || one_of "-_.!~*'()%" ch)
    (String.list_ascii_of_string
       (if is_alnum c || one_of "-_.!~*'()" c then String c EmptyString else percent_byte c))
  = true.
Proof. destruct c as [[] [] [] [] [] [] [] []]; vm_compute; reflexivity. Qed.

Lemma encodeURIComponent_plain s :
  Forall (λ ch, is_alnum ch || one_of "-_.!~*'()%" ch = true)
    (String.list_ascii_of_string (encodeURIComponent s)).
Proof.
  induction s as [|c s IH]; simpl; [constructor|].
  rewrite list_ascii_of_string_app. apply Forall_app. split; [|done].
  apply forallb_Forall, encodeURIComponent_byte_plain.
Qed.

Lemma plain_is_no_separator c :
  is_alnum c || one_of "-_.!~*'()%" c = true → one_of "&=#?/+ " c = false.
Proof. destruct c as [[] [] [] [] [] [] [] []]; vm_compute; done. Qed.

Lemma percent_decode_byte c rest :
  percent_decode
    ((if is_alnum c || one_of "-_.!~*'()" c then String c EmptyString else percent_byte c)
     +:+ rest) = String c (percent_decode rest).
Proof. destruct c as [[] [] [] [] [] [] [] []]; reflexivity. Qed.

Lemma percent_decode_encodeURIComponent s : percent_decode (encodeURIComponent s) = s.
Proof.
  induction s as [|c s IH]; simpl; [done|]. by rewrite percent_decode_byte, IH.
Qed.

Lemma form_urlencode_byte_plain c :
  forallb (λ ch, is_alnum ch || one_of "*-._+%" ch)
    (String.list_ascii_of_string
       (if Ascii.eqb c " " then "+"
        else if is_alnum c || one_of "*-._" c then String c EmptyString
        else percent_byte c))
  = true.
Proof. destruct c as [[] [] [] [] [] [] [] []]; vm_compute; reflexivity. Qed.

(** X18. [subscribe] sends one POST to [/newsletter/subscribe] whose
    body is the serialized [{ email }] and whose headers hold the JSON
    content type; it is not retried: whatever the answer, there is one
    call, no delay, and the caller gets what [request] made of it. *)
Theorem subscribe_request c email w :
  fetches (trace (snd (subscribe net JSON_stringify c email w))) =
    (fetches (trace w) ++
     [EvFetch (baseURL c +:+ "/newsletter/subscribe") "POST"
        (with_bearer (storage w !! token_key) {[ "Content-Type" := "application/json" ]})
        (Some (JSON_stringify (JObj [("email", JStr email)])))])%list ∧
  fst (subscribe net JSON_stringify c email w) = settled (net (fetched w)) ∧
  fetched (snd (subscribe net JSON_stringify c email w)) = S (fetched w) ∧
  delays (trace (snd (subscribe net JSON_stringify c email w))) = delays (trace w).
Proof.
  unfold subscribe.
  rewrite request_fetches, request_result, request_fetched, request_delays by done.
  done.
Qed.

(** X19. [getStatus] sends one GET whose URL ends in the escaped email:
    that part is made of letters, digits and [- _ . ! ~ * ' ( ) %], so
    that no [&], [=], [#] or [?] of the email reaches the query. *)
Theorem getStatus_request c email w :
  fetches (trace (snd (getStatus net c email w))) =
    (fetches (trace w) ++
     [EvFetch (baseURL c +:+ "/newsletter/status?email=" +:+ encodeURIComponent email) "GET"
        (with_bearer (storage w !! token_key) {[ "Content-Type" := "application/json" ]})
        None])%list ∧
  Forall (λ ch, is_alnum ch || one_of "-_.!~*'()%" ch = true)
    (String.list_ascii_of_string (encodeURIComponent email)) ∧
  Forall (λ ch, one_of "&=#?/+ " ch = false)
    (String.list_ascii_of_string (encodeURIComponent email)).
Proof.
  unfold getStatus. rewrite request_fetches by done. split_and!; [done | |].
  - apply encodeURIComponent_plain.
  - eapply Forall_impl; [apply encodeURIComponent_plain|].
    apply plain_is_no_separator.
Qed.

(** X20. The URL [getStatus] asks for determines the email: two emails
    with the same URL are the same email. *)
Theorem getStatus_url_injective c email1 email2 :
  baseURL c +:+ "/newsletter/status?email=" +:+ encodeURIComponent email1 =
  baseURL c +:+ "/newsletter/status?email=" +:+ encodeURIComponent email2 →
  email1 = email2.
Proof.
  intros H. do 2 apply append_cancel_l in H.
  by rewrite <- (percent_decode_encodeURIComponent email1), H,
    percent_decode_encodeURIComponent.
Qed.

(** X21. [suggestions] sends one GET to [/search/suggestions?q=]
    followed by the query as a form value: a space is a [+], and the
    rest is made of letters, digits and [* - . _ %]. *)
Theorem suggestions_request c query w :
  fetches (trace (snd (suggestions net c query w))) =
    (fetches (trace w) ++
     [EvFetch (baseURL c +:+ "/search/suggestions?q=" +:+ form_urlencode query) "GET"
        (with_bearer (storage w !! token_key) {[ "Content-Type" := "application/json" ]})
        None])%list ∧
  Forall (λ ch, is_alnum ch || one_of "*-._+%" ch = true)
    (String.list_ascii_of_string (form_urlencode query)).
Proof.
  unfold suggestions. rewrite request_fetches by done. split; [done|].
  induction query as [|ch query IH]; simpl; [constructor|].
  rewrite list_ascii_of_string_app. apply Forall_app. split; [|done].
  apply forallb_Forall, form_urlencode_byte_plain.
Qed.

End SubClients.

(** ** Throttled and debounced functions *)

Section UtilityFacts.

Context {A : Type}.
Variable returns : A → bool.
Variable limit wait : Z.

Lemma throttle_run_snoc inputs (i : Input A) :
  throttle_run returns limit (inputs ++ [i]) =
    throttle_step returns limit (throttle_run returns limit inputs) i.
Proof. unfold throttle_run. by rewrite fold_left_app. Qed.

Lemma debounce_run_snoc inputs (i : Input A) :
  debounce_run wait (inputs ++ [i]) = debounce_step wait (debounce_run wait inputs) i.
Proof. unfold debounce_run. by rewrite fold_left_app. Qed.

Lemma calls_snoc inputs (i : Input A) :
  calls (inputs ++ [i]) =
    (calls inputs ++ match i with Call a => [a] | Tick _ => [] end)%list.
Proof. unfold calls. rewrite omap_app. by destruct i. Qed.

Lemma ticks_snoc inputs (i : Input A) :
  ticks (inputs ++ [i]) =
    (ticks inputs + match i with Call _ => 0 | Tick _ => 1 end)%nat.
Proof.
  unfold ticks. rewrite omap_app, length_app. by destruct i.
Qed.

(** The flag is set exactly while the one timer is armed. *)
Lemma throttle_flag_timer inputs :
  let s := throttle_run returns limit inputs in
  (inThrottle s = true ∧ ∃ id, th_timers s = {[ id := limit ]}) ∨
  (inThrottle s = false ∧ th_timers s = ∅).
Proof.
  induction inputs as [|i inputs IH] using rev_ind; simpl; [by right|].
  rewrite throttle_run_snoc. simpl in IH.
  destruct i as [a|id]; simpl.
  - unfold throttle_call.
    destruct IH as [[Hflag Ht]|[Hflag Ht]]; rewrite Hflag; [by left|].
    destruct (returns a); simpl; [|by right].
    left. split; [done|]. exists (th_next (throttle_run returns limit inputs)).
    by rewrite Ht, insert_empty.
  - unfold throttle_tick.
    destruct IH as [[Hflag [id' Ht]]|[Hflag Ht]]; rewrite Ht.
    + destruct (decide (id' = id)) as [->|Hne].
      * rewrite lookup_singleton_eq. simpl. right. split; [done|].
        apply delete_singleton_eq.
      * rewrite lookup_singleton_ne by done. left. split; [done|]. by exists id'.
    + rewrite lookup_empty. by right.
Qed.



(** An armed timer of a debounced function is the one its variable
    holds, carries the arguments of the latest call, and what was
    applied so far are arguments of earlier calls. *)
Lemma debounce_pending (inputs : list (Input A)) :
  let s := debounce_run wait inputs in
  (db_timers s = ∅ ∧ db_applied s `sublist_of` calls inputs) ∨
  (∃ id a earlier,
     db_timeout s = Some id ∧ db_timers s = {[ id := (wait, a) ]} ∧
     calls inputs = (earlier ++ [a])%list ∧ db_applied s `sublist_of` earlier).
Proof.
  induction inputs as [|i inputs IH] using rev_ind; simpl; [by left|].
  rewrite debounce_run_snoc, calls_snoc. simpl in IH.
  destruct i as [b|id']; simpl.
  - right. exists (db_next (debounce_run wait inputs)), b, (calls inputs).
    unfold debounce_call. simpl.
    destruct IH as [[Ht Hsub]|(id & a & earlier & Hto & Ht & Hcalls & Hsub)].
    + rewrite Ht. split_and!; try done.
      destruct (db_timeout (debounce_run wait inputs)); simpl;
        by rewrite ?delete_empty, insert_empty.
    + rewrite Hto, Ht. simpl. rewrite delete_singleton_eq, insert_empty.
      split_and!; try done. rewrite Hcalls. by apply sublist_inserts_r.
  - rewrite app_nil_r. unfold debounce_tick.
    destruct IH as [[Ht Hsub]|(id & a & earlier & Hto & Ht & Hcalls & Hsub)].
    + rewrite Ht, lookup_empty. left. by rewrite Ht.
    + rewrite Ht. destruct (decide (id = id')) as [->|Hne].
      * rewrite lookup_singleton_eq. simpl. left.
        rewrite Hto. simpl. rewrite delete_singleton_eq, delete_empty.
        split; [done|]. rewrite Hcalls. by apply sublist_app.
      * rewrite lookup_singleton_ne by done. right.
        exists id, a, earlier. by rewrite Ht.
Qed.

(** X24. Whatever calls and timers come in which order, a debounced
    function has at most one timer armed; it is the one its [timeout]
    variable holds, and its callback holds the arguments of the latest
    call. *)
Theorem debounce_one_timer (inputs : list (Input A)) :
  (size (db_timers (debounce_run wait inputs)) ≤ 1)%nat ∧
  ∀ id x,
    db_timers (debounce_run wait inputs) !! id = Some x →
    db_timeout (debounce_run wait inputs) = Some id ∧
    last (calls inputs) = Some (snd x) ∧ fst x = wait.
Proof.
  destruct (debounce_pending inputs)
    as [[Ht Hsub]|(id & a & earlier & Hto & Ht & Hcalls & Hsub)]; rewrite Ht.
  - rewrite map_size_empty. split; [lia|]. intros id x. by rewrite lookup_empty.
  - rewrite map_size_singleton. split; [lia|]. intros id' x Hx.
    apply lookup_singleton_Some in Hx as [<- <-].
    by rewrite Hto, Hcalls, last_snoc.
Qed.

(** X25. A debounced function applies [func] only to arguments it was
    called with, in the order of the calls and each call at most once. *)
Theorem debounce_applied (inputs : list (Input A)) :
  db_applied (debounce_run wait inputs) `sublist_of` calls inputs.
Proof.
  destruct (debounce_pending inputs)
    as [[Ht Hsub]|(id & a & earlier & Hto & Ht & Hcalls & Hsub)]; [done|].
  rewrite Hcalls. by apply sublist_inserts_r.
Qed.

Lemma debounce_calls_applied (burst : list A) : ∀ s,
  db_applied (fold_left (debounce_step wait) (map Call burst) s) = db_applied s.
Proof. induction burst as [|b burst IH]; intros s; simpl; [done | by rewrite IH]. Qed.

(** X26. After a burst of calls, the timer that is armed applies [func]
    to the arguments of the last call of the burst and to nothing else:
    the earlier calls of the burst are never applied, and no timer is
    left. *)
Theorem debounce_last_call_wins (inputs : list (Input A)) (burst : list A) (a : A) :
  let s := debounce_run wait (inputs ++ map Call (burst ++ [a])) in
  ∃ id,
    db_timeout s = Some id ∧
    db_timers s = {[ id := (wait, a) ]} ∧
    db_applied (debounce_step wait s (Tick id)) =
      (db_applied (debounce_run wait inputs) ++ [a])%list ∧
    db_timers (debounce_step wait s (Tick id)) = ∅.
Proof.
  cbv zeta. rewrite map_app, app_assoc. simpl. rewrite debounce_run_snoc. simpl.
  set (s' := debounce_run wait (inputs ++ map Call burst)).
  assert (db_applied s' = db_applied (debounce_run wait inputs)) as Happ.
  { unfold s', debounce_run. rewrite fold_left_app. apply debounce_calls_applied. }
  assert (clear (db_timeout s') (db_timers s') = ∅) as Hclear.
  { destruct (debounce_pending (inputs ++ map Call burst))
      as [[Ht Hsub]|(id & a' & earlier & Hto & Ht & Hcalls & Hsub)]; fold s' in Ht.
    - rewrite Ht. destruct (db_timeout s'); simpl; by rewrite ?delete_empty.
    - fold s' in Hto. rewrite Hto, Ht. simpl. apply delete_singleton_eq. }
  exists (db_next s'). unfold debounce_call, debounce_tick. simpl.
  rewrite Hclear, insert_empty, lookup_singleton_eq. simpl.
  rewrite Happ, delete_singleton_eq, delete_empty. done.
Qed.

End UtilityFacts.

(** ** More scenarios *)

(** A 502 whose body is an HTML page: the error carries [{}]. *)
Lemma request_http_error_witness :
  fst (request bad_gateway_net new_RawfinAPI "/episodes/featured" no_options initial_world)
    = Throw (APIError "API Error: 502" 502 empty_object).
Proof.
  apply (request_http_error bad_gateway_net new_RawfinAPI "/episodes/featured" no_options
           initial_world 502
           (BodyRejects {| err_name := "SyntaxError"; err_message := "Unexpected token <" |}));
    [reflexivity | right; lia].
Defined.

(** A 200 whose body is an HTML page. *)
Lemma request_unparsable_success_witness :
  fst (request not_json_net new_RawfinAPI "/episodes/featured" no_options initial_world)
    = Throw (Native {| err_name := "SyntaxError"; err_message := "Unexpected token <" |}) ∧
  requestWithRetry not_json_net new_RawfinAPI "/episodes/featured" no_options 1 initial_world
    = request not_json_net new_RawfinAPI "/episodes/featured" no_options initial_world.
Proof.
  apply (request_unparsable_success not_json_net new_RawfinAPI "/episodes/featured"
           no_options initial_world 200
           {| err_name := "SyntaxError"; err_message := "Unexpected token <" |});
    [reflexivity | lia | simpl; discriminate].
Defined.

(** Signed in, with the caller's own headers: they go out with the
    token, and without the JSON content type. *)
Lemma request_outgoing_witness :
  fetches (trace (snd (request ok_net new_RawfinAPI "/episodes/featured" with_own_headers
                         signed_in_world)))
  = [EvFetch "https://rawfin.tv/api/episodes/featured" "GET"
       (<["Authorization" := "Bearer abc"]> {[ "Accept" := "application/json" ]}) None].
Proof.
  rewrite (request_outgoing ok_net new_RawfinAPI "/episodes/featured" with_own_headers
             signed_in_world).
  - vm_compute. reflexivity.
  - intros l [= <-]. vm_compute. eauto.
Defined.

Lemma request_mutates_caller_headers_witness :
  deref (snd (request ok_net new_RawfinAPI "/episodes/featured" with_own_headers
                signed_in_world)) 0
  = <["Authorization" := "Bearer abc"]> {[ "Accept" := "application/json" ]}.
Proof.
  rewrite (request_mutates_caller_headers ok_net new_RawfinAPI "/episodes/featured"
             with_own_headers signed_in_world 0 "abc").
  - vm_compute. reflexivity.
  - reflexivity.
  - vm_compute. eauto.
  - vm_compute. reflexivity.
  - reflexivity.
Defined.

Lemma refreshToken_failure_witness :
  fst (refreshToken failing_net scenario_stringify scenario_String new_RawfinAPI
         signed_in_world)
    = Throw (APIError "API Error: 503" 503 empty_object) ∧
  storage (snd (refreshToken failing_net scenario_stringify scenario_String new_RawfinAPI
                  signed_in_world)) !! token_key = None.
Proof.
  destruct (refreshToken_failure failing_net scenario_stringify scenario_String
              new_RawfinAPI signed_in_world
              (APIError "API Error: 503" 503 empty_object)) as (Hres & Htok & _).
  - vm_compute. reflexivity.
  - split; [exact Hres | exact Htok].
Defined.

Lemma refreshToken_stores_token_witness :
  storage (snd (refreshToken refreshing_net scenario_stringify scenario_String new_RawfinAPI
                  signed_in_world)) !! token_key = Some "fresh".
Proof.
  destruct (refreshToken_stores_token refreshing_net scenario_stringify scenario_String
              new_RawfinAPI signed_in_world [("token", JStr "fresh")] "fresh")
    as (_ & Htok & _).
  - vm_compute. reflexivity.
  - reflexivity.
  - reflexivity.
  - exact Htok.
Defined.

(** The backend answers the refresh with [{}]: the user is signed out
    without a failure. *)
Lemma refreshToken_without_token_witness :
  fst (refreshToken ok_net scenario_stringify scenario_String new_RawfinAPI
         signed_in_world) = Return empty_object ∧
  fst (isAuthenticated (snd (refreshToken ok_net scenario_stringify scenario_String
                               new_RawfinAPI signed_in_world))) = Return false.
Proof.
  destruct (refreshToken_without_token ok_net scenario_stringify scenario_String
              new_RawfinAPI signed_in_world empty_object) as (Hres & Hauth & _).
  - vm_compute. reflexivity.
  - discriminate.
  - reflexivity.
  - split; [exact Hres | exact Hauth].
Defined.

Lemma refreshToken_null_answer_witness :
  fst (refreshToken null_net scenario_stringify scenario_String new_RawfinAPI
         signed_in_world) = Throw (Native null_has_no_properties).
Proof.
  destruct (refreshToken_null_answer null_net scenario_stringify scenario_String
              new_RawfinAPI signed_in_world) as (Hres & _).
  - vm_compute. reflexivity.
  - exact Hres.
Defined.

Lemma getUserData_read_back_witness :
  fst (getUserData scenario_parse
         (snd (setUserData scenario_stringify (Some empty_object) initial_world)))
    = Return empty_object.
Proof.
  apply (getUserData_read_back scenario_stringify scenario_parse empty_object initial_world);
    reflexivity.
Defined.

(** The page loads at [/auth/callback?token=abc] and the profile call
    is answered with 503. *)
Lemma auth_callback_profile_failure_witness :
  navigations (trace (snd (auth_callback failing_net scenario_stringify new_RawfinAPI
                             callback_with_token initial_world))) = [] ∧
  fst (isAuthenticated (snd (auth_callback failing_net scenario_stringify new_RawfinAPI
                               callback_with_token initial_world))) = Return false.
Proof.
  destruct (auth_callback_profile_failure failing_net scenario_stringify new_RawfinAPI
              callback_with_token initial_world "abc"
              (APIError "API Error: 503" 503 empty_object)) as (_ & Hnav & Hauth & _).
  - reflexivity.
  - reflexivity.
  - reflexivity.
  - vm_compute. reflexivity.
  - split; [exact Hnav | exact Hauth].
Defined.

Lemma getStatus_url_injective_witness :
  encodeURIComponent "a&b@example.org" = "a%26b%40example.org" ∧
  "a&b@example.org" = "a&b@example.org".
Proof.
  split; [reflexivity|].
  apply (getStatus_url_injective new_RawfinAPI "a&b@example.org" "a&b@example.org").
  reflexivity.
Defined.

(** From the origin [https://x/api], the limits 12 and 6. *)
Lemma getRecent_request_witness :
  fetches (trace (snd (getRecent ok_net decimal_limit (at_origin "https://x/api") (Some 12)
                         initial_world)))
  = [EvFetch "https://x/api/episodes/recent?limit=12" "GET"
       {[ "Content-Type" := "application/json" ]} None] ∧
  fetches (trace (snd (getRecent ok_net decimal_limit (at_origin "https://x/api") (Some 6)
                         initial_world)))
  = [EvFetch "https://x/api/episodes/recent?limit=6" "GET"
       {[ "Content-Type" := "application/json" ]} None].
Proof.
  destruct (getRecent_request ok_net decimal_limit (at_origin "https://x/api") 12 6 "12"
              initial_world) as (Hn & Hsix & _).
  - reflexivity.
  - reflexivity.
  - split; [exact Hn | exact Hsix].
Defined.
